(** * golden_parser_aib: a shallow embedding of the AIB statement parser

    The embedding follows [golden_parser_aib.py] function by function.

    - A Python [str] is a list of Unicode code points.  The character
      classes of the ASCII range are written out; those of the other code
      points come from the interpreter's Unicode database, which is a
      parameter ([UnicodeDB]) of every definition that depends on it.
    - A Python [float] is an IEEE 754 binary64 value ([spec_float] at
      precision 53 and maximal exponent 1024); [float(s)] and the [.2f]
      format are correctly rounded, as in CPython.
    - Code that can raise lives in the error monad [py]; indexing a list
      raises [IndexError] out of range and [float(s)] raises [ValueError].
    - The PDF library is an external collaborator: a page or a document is
      the record of what its methods answer, and each answer may be an
      error.
    - The file system holds the CSV files written and tells which paths
      [open] refuses; opening such a path for writing raises [OSError]. *)

From Stdlib Require Import Ascii String DecimalString.
From Stdlib Require Import ZArith NArith Bool List Lia.
From Stdlib Require Import Floats.SpecFloat.
From Stdlib Require Import Sorting.Sorted.
Import ListNotations.
Local Open Scope list_scope.

(* ------------------------------------------------------------------ *)
(** ** Python strings *)

Definition char := N.
Definition str := list char.

(** An ASCII literal of the source, as code points. *)
Definition lit (s : string) : str := map N_of_ascii (list_ascii_of_string s).

Definition chr_euro : char := 8364%N.   (* U+20AC *)
Definition chr_pound : char := 163%N.   (* U+00A3 *)
Definition chr_newline : char := 10%N.
Definition chr_dot : char := 46%N.
Definition chr_minus : char := 45%N.
Definition chr_plus : char := 43%N.
Definition chr_underscore : char := 95%N.
Definition chr_space : char := 32%N.

(** The part of the Unicode database the program consults, for the code
    points from 128 on.  [u_decimal] gives the value of a decimal digit
    (category Nd), [u_digit_other] holds of the digits that are not decimal
    (superscripts and the like), [u_upper] and [u_lower] are the full case
    mappings.  (Python's one contextual rule, the final sigma, chooses
    between two code points that nothing below tells apart.)  A decimal
    digit has a value below ten and is no white space. *)
Class UnicodeDB : Type := {
  u_isspace : char -> bool;
  u_decimal : char -> option N;
  u_digit_other : char -> bool;
  u_upper : char -> str;
  u_lower : char -> str;
  u_decimal_lt : forall c d, u_decimal c = Some d -> (d < 10)%N;
  u_decimal_not_space : forall c d, u_decimal c = Some d -> u_isspace c = false
}.

(** The database in which no code point from 128 on has a class or a case. *)
#[export] Instance plain_db : UnicodeDB := {|
  u_isspace := fun _ => false;
  u_decimal := fun _ => None;
  u_digit_other := fun _ => false;
  u_upper := fun c => [c];
  u_lower := fun c => [c];
  u_decimal_lt := fun c d (H : None = Some d) => ltac:(discriminate H);
  u_decimal_not_space := fun c d _ => eq_refl
|}.

Definition between (lo hi c : N) : bool := ((lo <=? c) && (c <=? hi))%N.

Definition is_ascii (c : char) : bool := (c <? 128)%N.

Fixpoint str_eqb (a b : str) : bool :=
  match a, b with
  | [], [] => true
  | x :: a', y :: b' => (x =? y)%N && str_eqb a' b'
  | _, _ => false
  end.

(** [s.startswith(p)] *)
Fixpoint startswith (p s : str) : bool :=
  match p, s with
  | [], _ => true
  | x :: p', y :: s' => (x =? y)%N && startswith p' s'
  | _ :: _, [] => false
  end.

(** [sub in s] *)
Fixpoint contains (sub s : str) : bool :=
  startswith sub s ||
  match s with
  | [] => false
  | _ :: s' => contains sub s'
  end.

(** [s.replace(old, new)] for a non-empty [old]: the occurrences are taken
    from the left and do not overlap.  [skip] counts the characters of the
    occurrence being replaced that are still to be dropped. *)
Fixpoint replace_from (old new : str) (skip : nat) (s : str) : str :=
  match s with
  | [] => []
  | c :: s' =>
      match skip with
      | S k => replace_from old new k s'
      | O =>
          if startswith old s
          then new ++ replace_from old new (length old - 1) s'
          else c :: replace_from old new 0 s'
      end
  end.

Definition replace (old new s : str) : str := replace_from old new 0 s.

(** [sep.join(parts)] *)
Fixpoint join (sep : str) (parts : list str) : str :=
  match parts with
  | [] => []
  | [p] => p
  | p :: rest => p ++ sep ++ join sep rest
  end.

(** Truth value of a string: non-empty. *)
Definition truthy (s : str) : bool :=
  match s with [] => false | _ :: _ => true end.

Fixpoint dropwhile {A} (p : A -> bool) (l : list A) : list A :=
  match l with
  | [] => []
  | x :: l' => if p x then dropwhile p l' else l
  end.

Fixpoint takewhile {A} (p : A -> bool) (l : list A) : list A :=
  match l with
  | [] => []
  | x :: l' => if p x then x :: takewhile p l' else []
  end.

Section Unicode.
Context {U : UnicodeDB}.

(** [str.isspace] on one code point; also the class [\s] of [re]. *)
Definition isspace (c : char) : bool :=
  if is_ascii c
  then between 9 13 c || between 28 31 c || (c =? 32)%N
  else u_isspace c.

(** The value of a decimal digit; [\d] of [re] matches exactly these. *)
Definition decimal_value (c : char) : option N :=
  if is_ascii c
  then if between 48 57 c then Some (c - 48)%N else None
  else u_decimal c.

Definition isdecimal (c : char) : bool :=
  match decimal_value c with Some _ => true | None => false end.

Definition isdigit_char (c : char) : bool :=
  isdecimal c || (negb (is_ascii c) && u_digit_other c).

(** [s.isdigit()] *)
Definition isdigit (s : str) : bool := truthy s && forallb isdigit_char s.

Definition upper_char (c : char) : str :=
  if is_ascii c
  then [if between 97 122 c then (c - 32)%N else c]
  else u_upper c.

Definition lower_char (c : char) : str :=
  if is_ascii c
  then [if between 65 90 c then (c + 32)%N else c]
  else u_lower c.

Definition upper (s : str) : str := flat_map upper_char s.
Definition lower (s : str) : str := flat_map lower_char s.

(** [s.strip()] *)
Definition lstrip (s : str) : str := dropwhile isspace s.
Definition rstrip (s : str) : str := rev (dropwhile isspace (rev s)).
Definition strip (s : str) : str := rstrip (lstrip s).
End Unicode.

(* ------------------------------------------------------------------ *)
(** ** Python floats: IEEE 754 binary64 *)

Definition float := spec_float.
Definition prec : Z := 53.
Definition emax : Z := 1024.

Definition float_zero : float := S754_zero false.          (* 0.0 *)
Definition float_inf : float := S754_infinity false.       (* float("inf") *)
Definition float_neg (x : float) : float := SFopp x.        (* -x *)
Definition float_leb (x y : float) : bool := SFleb x y.     (* x <= y *)

(** The float of an integer literal that a binary64 holds exactly. *)
Definition float_of_Z (z : Z) : float := binary_normalize prec emax z 0 false.

(** Truth value of a float: it is not zero (a NaN is true). *)
Definition float_truthy (x : float) : bool :=
  match x with S754_zero _ => false | _ => true end.

(** The binary64 nearest to [m * 10^e] (ties to even), with the sign
    [neg]: the value [float] gives to a decimal numeral. *)
Definition float_of_decimal (neg : bool) (m : N) (e : Z) : float :=
  match m with
  | N0 => S754_zero neg
  | Npos p =>
      if (0 <=? e)%Z
      then binary_normalize prec emax
             (if neg then Z.neg p * 10 ^ e else Z.pos p * 10 ^ e)%Z 0 neg
      else
        let '(q, e2, l) :=
          SFdiv_core_binary prec emax (Z.pos p) 0 (10 ^ (- e))%Z 0 in
        binary_round_aux prec emax neg q e2 l
  end.

(** The value [x] in hundredths, rounded to the nearest integer, ties to
    even, for the finite float [m * 2^e]. *)
Definition round_hundredths (m : positive) (e : Z) : Z :=
  if (0 <=? e)%Z then (Z.pos m * 2 ^ e * 100)%Z
  else
    let num := (Z.pos m * 100)%Z in
    let den := (2 ^ (- e))%Z in
    let q := (num / den)%Z in
    let r := (num mod den)%Z in
    match (2 * r ?= den)%Z with
    | Lt => q
    | Gt => (q + 1)%Z
    | Eq => if Z.even q then q else (q + 1)%Z
    end.

Definition digits_of_N (n : N) : str := lit (NilZero.string_of_uint (N.to_uint n)).

Definition two_digits (n : N) : str :=
  [(48 + n / 10)%N; (48 + n mod 10)%N].

Definition sign_prefix (neg : bool) : str := if neg then [chr_minus] else [].

(** [f"{x:.2f}"] *)
Definition format_2f (x : float) : str :=
  match x with
  | S754_nan => lit "nan"
  | S754_infinity s => sign_prefix s ++ lit "inf"
  | S754_zero s => sign_prefix s ++ lit "0.00"
  | S754_finite s m e =>
      let h := Z.to_N (round_hundredths m e) in
      sign_prefix s ++ digits_of_N (h / 100) ++ [chr_dot] ++ two_digits (h mod 100)
  end.

(* ------------------------------------------------------------------ *)
(** ** Exceptions *)

Inductive exn : Type :=
| ValueError
| IndexError
| ExternalError (msg : string)   (* raised inside the PDF library *)
| OSError (msg : string)         (* raised by [open] on a file *)
| OutOfFuel.                     (* a loop of the model ran out of steps *)

Definition py (A : Type) : Type := (exn + A)%type.

Definition ret {A} (a : A) : py A := inr a.
Definition raise {A} (e : exn) : py A := inl e.
Definition bind {A B} (c : py A) (k : A -> py B) : py B :=
  match c with
  | inl e => inl e
  | inr a => k a
  end.

Declare Scope py_scope.
Delimit Scope py_scope with py.
Notation "x <- c ;; k" := (bind c (fun x => k))
  (at level 100, c at next level, right associativity) : py_scope.
Local Open Scope py_scope.

(** [l[i]] for an index [i >= 0]. *)
Definition getitem {A} (l : list A) (i : nat) : py A :=
  match nth_error l i with
  | Some a => ret a
  | None => raise IndexError
  end.

(** [range(lo, hi)] *)
Definition range (lo hi : nat) : list nat := seq lo (hi - lo).

(** A [for] loop whose body may [return]: [Some r] leaves the loop (and the
    function) with [r], [None] goes on with the next element. *)
Fixpoint for_return {A R} (xs : list A) (body : A -> py (option R)) : py (option R) :=
  match xs with
  | [] => ret None
  | x :: xs' =>
      r <- body x ;;
      match r with
      | Some v => ret (Some v)
      | None => for_return xs' body
      end
  end.

(** The first answer among the alternatives tried in order (the order in
    which a backtracking matcher tries them). *)
Fixpoint first_some {A B} (f : A -> option B) (l : list A) : option B :=
  match l with
  | [] => None
  | a :: l' =>
      match f a with
      | Some b => Some b
      | None => first_some f l'
      end
  end.

(* ------------------------------------------------------------------ *)
(** ** [float(s)] on a string *)

Definition is_ascii_digit (c : char) : bool := between 48 57 c.

(** [Py_ISSPACE]: the white space [float] strips. *)
Definition is_c_space (c : char) : bool := between 9 13 c || (c =? 32)%N.

(** The digits of a numeral, most significant first, as a number. *)
Definition digits_value (ds : str) : N :=
  fold_left (fun acc c => (10 * acc + (c - 48))%N) ds 0%N.

(** Underscores may stand between two digits only; they are dropped. *)
Fixpoint drop_underscores (prev : char) (s : str) : option str :=
  match s with
  | [] => if (prev =? chr_underscore)%N then None else Some []
  | c :: s' =>
      if (c =? chr_underscore)%N
      then if is_ascii_digit prev then drop_underscores c s' else None
      else if (prev =? chr_underscore)%N && negb (is_ascii_digit c) then None
      else option_map (cons c) (drop_underscores c s')
  end.

Definition ascii_lower (c : char) : char :=
  if between 65 90 c then (c + 32)%N else c.

(** The exponent part of a numeral: nothing, or [e], an optional sign and
    at least one digit, up to the end of the text. *)
Definition parse_exponent (s : str) : option Z :=
  match s with
  | [] => Some 0%Z
  | c :: s1 =>
      if (ascii_lower c =? 101)%N
      then
        let '(eneg, s2) :=
          match s1 with
          | d :: s2 =>
              if (d =? chr_minus)%N then (true, s2)
              else if (d =? chr_plus)%N then (false, s2)
              else (false, s1)
          | [] => (false, s1)
          end in
        match s2 with
        | [] => None
        | _ :: _ =>
            if forallb is_ascii_digit s2
            then Some (if eneg then - Z.of_N (digits_value s2)
                       else Z.of_N (digits_value s2))%Z
            else None
        end
      else None
  end.

(** An unsigned numeral: digits, an optional point and digits (one digit at
    least), an optional exponent; or [inf], [infinity], [nan] in any case. *)
Definition parse_unsigned (neg : bool) (s : str) : option float :=
  let low := map ascii_lower s in
  if str_eqb low (lit "inf") || str_eqb low (lit "infinity")
  then Some (S754_infinity neg)
  else if str_eqb low (lit "nan") then Some S754_nan
  else
    let ip := takewhile is_ascii_digit s in
    let r1 := dropwhile is_ascii_digit s in
    let '(fp, r2) :=
      match r1 with
      | c :: r =>
          if (c =? chr_dot)%N
          then (takewhile is_ascii_digit r, dropwhile is_ascii_digit r)
          else ([], r1)
      | [] => ([], r1)
      end in
    match ip ++ fp with
    | [] => None
    | _ :: _ =>
        match parse_exponent r2 with
        | Some e =>
            Some (float_of_decimal neg (digits_value (ip ++ fp))
                    (e - Z.of_nat (List.length fp)))
        | None => None
        end
    end.

Definition parse_signed (s : str) : option float :=
  match s with
  | c :: s' =>
      if (c =? chr_minus)%N then parse_unsigned true s'
      else if (c =? chr_plus)%N then parse_unsigned false s'
      else parse_unsigned false s
  | [] => None
  end.

Section PyFloat.
Context {U : UnicodeDB}.

(** What [float] reads in place of a code point: a Unicode space as a
    blank, a Unicode decimal digit as its ASCII digit, anything else
    outside ASCII as [?], which no numeral contains. *)
Definition to_ascii_char (c : char) : char :=
  if is_ascii c then c
  else if u_isspace c then chr_space
  else match u_decimal c with
       | Some d => (48 + d)%N
       | None => 63%N
       end.

(** [float(s)] *)
Definition py_float (s : str) : py float :=
  let a := map to_ascii_char s in
  let t := rev (dropwhile is_c_space (rev (dropwhile is_c_space a))) in
  match drop_underscores 0%N t with
  | None => raise ValueError
  | Some t' =>
      match parse_signed t' with
      | Some x => ret x
      | None => raise ValueError
      end
  end.
End PyFloat.

(* ------------------------------------------------------------------ *)
(** ** Constants and configuration *)

Definition MONTHS : list str :=
  map lit ["Jan"; "Feb"; "Mar"; "Apr"; "May"; "Jun";
           "Jul"; "Aug"; "Sep"; "Oct"; "Nov"; "Dec"]%string.

(** [m in MONTHS] *)
Definition in_MONTHS (m : str) : bool := existsb (str_eqb m) MONTHS.

Inductive column : Type := DEBIT | CREDIT | BALANCE | UNKNOWN.

(** The dictionary [COLUMN_BOUNDS], in the order of its keys. *)
Definition COLUMN_BOUNDS : list (column * (float * float)) :=
  [ (DEBIT, (float_of_Z 250, float_of_Z 324));
    (CREDIT, (float_of_Z 325, float_of_Z 350));
    (BALANCE, (float_of_Z 395, float_inf)) ].

(** A word of the text layer: [(x0, y0, x1, y1, txt, block, line, word)]. *)
Record word : Type := mkWord {
  w_x0 : float; w_y0 : float; w_x1 : float; w_y1 : float;
  w_txt : str;
  w_block : Z; w_line : Z; w_word : Z
}.

(** The dictionary [find_amount_coordinates] answers. *)
Record coordinates : Type := mkCoords {
  c_x0 : float; c_y0 : float; c_x1 : float; c_y1 : float;
  c_column : column
}.

(** A value that is a string or a number (a coordinate of a transaction, a
    cell handed to the CSV writer). *)
Inductive value : Type :=
| VStr (s : str)
| VFloat (x : float).

(** The dictionary [parse_transaction_row] answers. *)
Record transaction : Type := mkTx {
  tx_row : nat;
  tx_date : str;
  tx_details : str;
  tx_debit : float;
  tx_credit : float;
  tx_balance : float;
  tx_x_coord : value;
  tx_y_coord : value
}.

(** [tx["date"] = d] *)
Definition set_date (tx : transaction) (d : str) : transaction :=
  mkTx (tx_row tx) d (tx_details tx) (tx_debit tx) (tx_credit tx)
       (tx_balance tx) (tx_x_coord tx) (tx_y_coord tx).

Definition table := list (list str).

(** [(debit, credit, balance)] after the chain [if col == "DEBIT": ... elif
    col == "CREDIT": ... elif col == "BALANCE": ...] of
    [parse_transaction_row], the three being [0.0] before it. *)
Definition assign_amount (col : column) (amt : float) : float * float * float :=
  match col with
  | DEBIT => (amt, float_zero, float_zero)
  | CREDIT => (float_zero, amt, float_zero)
  | BALANCE => (float_zero, float_zero, amt)
  | UNKNOWN => (float_zero, float_zero, float_zero)
  end.

Section Parser.
Context {U : UnicodeDB}.

(** [AMOUNT_RE.match(cell)] for [^\d+\.\d{2}$]: a longest run of decimal
    digits (the point that must follow is no digit, so a shorter run
    cannot match), a point, two digits, and the end of the text or the
    line feed that ends it. *)
Definition AMOUNT_RE_match (cell : str) : bool :=
  truthy (takewhile isdecimal cell) &&
  match dropwhile isdecimal cell with
  | dot :: d1 :: d2 :: tl =>
      (dot =? chr_dot)%N && isdecimal d1 && isdecimal d2 &&
      match tl with
      | [] => true
      | [nl] => (nl =? chr_newline)%N
      | _ => false
      end
  | _ => false
  end.

(** [n] decimal digits at the head of [s]: the digits and the rest. *)
Definition match_digits (n : nat) (s : str) : option (str * str) :=
  if (n <=? List.length s)%nat && forallb isdecimal (firstn n s)
  then Some (firstn n s, skipn n s)
  else None.

(** The lengths a greedy [\s+] tries at the head of [s], longest first. *)
Definition space_runs (s : str) : list nat :=
  rev (seq 1 (List.length (takewhile isspace s))).

(** [DATE_RE] matched at the head of [s], by backtracking in the order of
    the pattern [(\d{1,2})\s+(Jan|...|Dec)\s+(\d{4})]: the groups. *)
Definition DATE_RE_match_at (s : str) : option (str * str * str) :=
  first_some (fun n =>
    match match_digits n s with
    | None => None
    | Some (day, r1) =>
        first_some (fun k =>
          let r2 := skipn k r1 in
          first_some (fun month =>
            if startswith month r2
            then
              let r3 := skipn (List.length month) r2 in
              first_some (fun k2 =>
                match match_digits 4 (skipn k2 r3) with
                | Some (year, _) => Some (day, month, year)
                | None => None
                end) (space_runs r3)
            else None) MONTHS) (space_runs r1)
    end) [2; 1]%nat.

(** [DATE_RE.search(s)]: the leftmost match. *)
Fixpoint DATE_RE_search (s : str) : option (str * str * str) :=
  match DATE_RE_match_at s with
  | Some g => Some g
  | None =>
      match s with
      | [] => None
      | _ :: s' => DATE_RE_search s'
      end
  end.

(** [f"{d} {m} {y}"] *)
Definition compose_date (d m y : str) : str :=
  d ++ [chr_space] ++ m ++ [chr_space] ++ y.

Definition extract_date_from_raw_text (text : str) : option str :=
  match DATE_RE_search (text ++ lit " BALANCE FORWARD") with
  | Some (day, month, year) => Some (compose_date day month year)
  | None => None
  end.

(** The column of the first band of [COLUMN_BOUNDS] that holds [x0]. *)
Definition band_of (x0 : float) : column :=
  match find (fun '(_, (xmin, xmax)) => float_leb xmin x0 && float_leb x0 xmax)
             COLUMN_BOUNDS with
  | Some (col, _) => col
  | None => UNKNOWN
  end.

Fixpoint find_amount_coordinates (words : list word) (amount : float)
  : option coordinates :=
  let target := format_2f amount in
  match words with
  | [] => None
  | w :: rest =>
      if str_eqb (replace (lit ",") [] (w_txt w)) target
      then Some (mkCoords (w_x0 w) (w_y0 w) (w_x1 w) (w_y1 w) (band_of (w_x0 w)))
      else find_amount_coordinates rest amount
  end.

(** The end of [parse_amount_field], from [negative = s.startswith("-")]
    on: the sign, the conversion and its [except ValueError]. *)
Definition amount_value (is_balance overdrawn : bool) (s : str) : py float :=
  let negative := startswith [chr_minus] s in
  let s := if negative then tl s else s in
  match
    (val <- py_float s ;;
     ret (if is_balance && overdrawn then float_neg val
          else if negative then float_neg val
          else val))
  with
  | inl ValueError => ret float_zero
  | other => other
  end.

(** [amount_str.strip().lower().replace("€", "").replace("£", "")
    .replace(",", "")] *)
Definition amount_text (amount_str : str) : str :=
  replace (lit ",") []
    (replace [chr_pound] []
       (replace [chr_euro] [] (lower (strip amount_str)))).

Definition parse_amount_field (amount_str : str) (is_balance : bool) : py float :=
  if negb (truthy amount_str) || negb (truthy (strip amount_str))
  then ret float_zero
  else
    let s := amount_text amount_str in
    if contains (lit "dr") s
    then
      if is_balance
      then amount_value is_balance true (strip (replace (lit "dr") [] s))
      else ret float_zero
    else amount_value is_balance false s.

(** [any(k in text for k in ("BALANCE FORWARD", "LENDING @"))] *)
Definition has_anchor (text : str) : bool :=
  contains (lit "BALANCE FORWARD") text || contains (lit "LENDING @") text.

(** The test of a day, a month and a year on three stripped cells. *)
Definition is_date_triple (d m y : str) : bool :=
  isdigit d && in_MONTHS m && isdigit y.

(** The body of the inner loop of [extract_initial_date]: the date that
    the first three cells of the row [j] write, when they write one. *)
Definition date_cells_at (t : table) (j : nat) : py (option str) :=
  cells <- getitem t j ;;
  if (3 <=? List.length cells)%nat
  then
    c0 <- getitem cells 0 ;;
    c1 <- getitem cells 1 ;;
    c2 <- getitem cells 2 ;;
    let d := strip c0 in
    let m := strip c1 in
    let y := strip c2 in
    if is_date_triple d m y
    then ret (Some (compose_date d m y))
    else ret None
  else ret None.

Definition extract_initial_date (t : table) : py str :=
  let limit := Nat.min (List.length t) 12 in
  found <-
    for_return (range 0 limit) (fun i =>
      row <- getitem t i ;;
      let row_text := upper (join [chr_space] row) in
      if has_anchor row_text
      then for_return (range i (Nat.min (i + 4) limit)) (date_cells_at t)
      else ret None) ;;
  ret (match found with Some date => date | None => [] end).

(** [any(row)]: some cell is a non-empty string. *)
Definition any_cell (row : list str) : bool := existsb truthy row.

(** The loop [while idx < len(table) and not any(table[idx]): idx += 1];
    [fuel] bounds the number of turns. *)
Fixpoint skip_blank_rows (fuel : nat) (t : table) (idx : nat) : py nat :=
  if (idx <? List.length t)%nat
  then
    row <- getitem t idx ;;
    if negb (any_cell row)
    then
      match fuel with
      | O => raise OutOfFuel
      | S fuel' => skip_blank_rows fuel' t (S idx)
      end
    else ret idx
  else ret idx.

(** The loop of [find_transaction_start_index] over
    [enumerate(table[:12])], from the index [i] on. *)
Fixpoint start_index_loop (rows : table) (i : nat) (t : table) : py nat :=
  match rows with
  | [] => ret 0%nat
  | row :: rest =>
      let text := upper (join [chr_space] (map strip row)) in
      if has_anchor text
      then skip_blank_rows (List.length t) t (i + 3)
      else start_index_loop rest (S i) t
  end.

Definition find_transaction_start_index (t : table) : py nat :=
  start_index_loop (firstn 12 t) 0 t.

(** The cells that are no amount, joined by blanks and stripped. *)
Definition details_of (cells : list str) : str :=
  strip (join [chr_space] (filter (fun c => negb (AMOUNT_RE_match c)) cells)).

(** The first loop of [parse_transaction_row]: the first cell that
    matches [AMOUNT_RE] gives [(debit, credit, balance)] and [coords]. *)
Definition scan_amount (row : list str) (words : list word)
  : py (float * float * float * option coordinates) :=
  match find AMOUNT_RE_match row with
  | Some cell =>
      amt <- py_float cell ;;
      let coords := find_amount_coordinates words amt in
      let col := match coords with Some c => c_column c | None => DEBIT end in
      ret (assign_amount col amt, coords)
  | None => ret (float_zero, float_zero, float_zero, None)
  end.

(** The second loop of [parse_transaction_row]: the first three cells in
    a row that are a day, a month and a year give [(date, details)]. *)
Definition scan_date (row : list str) : py (option (str * str)) :=
  for_return (range 0 (List.length row - 2)) (fun i =>
    c0 <- getitem row i ;;
    c1 <- getitem row (i + 1) ;;
    c2 <- getitem row (i + 2) ;;
    let d := strip c0 in
    let m := strip c1 in
    let y := strip c2 in
    if is_date_triple d m y
    then ret (Some (compose_date d m y, details_of (skipn (i + 3) row)))
    else ret None).

Definition parse_transaction_row (row : list str) (idx : nat)
    (words : list word) (inherited_date : str) : py (option transaction) :=
  amounts <- scan_amount row words ;;
  let '(debit, credit, balance, coords) := amounts in
  found <- scan_date row ;;
  let '(date, details) :=
    match found with Some dd => dd | None => ([], []) end in
  let '(date, details) :=
    if negb (truthy date) then (inherited_date, details_of row)
    else (date, details) in
  if negb (truthy date || truthy details || float_truthy debit
           || float_truthy credit || float_truthy balance)
  then ret None
  else
    ret (Some (mkTx idx date details debit credit balance
                 (match coords with Some c => VFloat (c_x0 c) | None => VStr [] end)
                 (match coords with Some c => VFloat (c_y0 c) | None => VStr [] end))).
End Parser.

(* ------------------------------------------------------------------ *)
(** ** The PDF library *)

(** What a call into the PDF library answers: a result, or the message of
    the error it raises. *)
Definition external (A : Type) : Type := (string + A)%type.

Definition call {A} (r : external A) : py A :=
  match r with
  | inl msg => raise (ExternalError msg)
  | inr a => ret a
  end.

(** A table found on a page: what [extract()] answers. *)
Record table_obj : Type := mkTable { extract : external table }.

(** A page: what [get_text()], [get_text("words", sort=True)] and
    [find_tables(...).tables] answer. *)
Record page : Type := mkPage {
  get_text : external str;
  get_text_words : external (list word);
  find_tables : external (list table_obj)
}.

(** A document: what [doc[p]] answers for each [p] below [page_count]. *)
Record document : Type := mkDoc { doc_pages : list (external page) }.

Definition page_count (doc : document) : nat := List.length (doc_pages doc).

(** The state of the handle of the document being read. *)
Inductive handle : Type := NotOpened | Opened | Closed.

(** Statements that read and change the handle and may raise: an exception
    leaves the statements that follow unexecuted. *)
Definition io (A : Type) : Type := handle -> py A * handle.

Definition io_ret {A} (a : A) : io A := fun h => (ret a, h).
Definition io_bind {A B} (c : io A) (k : A -> io B) : io B :=
  fun h =>
    match c h with
    | (inl e, h') => (inl e, h')
    | (inr a, h') => k a h'
    end.
Definition io_lift {A} (c : py A) : io A := fun h => (c, h).

Declare Scope io_scope.
Delimit Scope io_scope with io.
Notation "x <- c ;; k" := (io_bind c (fun x => k))
  (at level 100, c at next level, right associativity) : io_scope.

(** [pymupdf.open(path)]: the handle is open once the call has answered. *)
Definition pymupdf_open (opened : external document) : io document :=
  fun h =>
    match opened with
    | inl msg => (raise (ExternalError msg), h)
    | inr doc => (ret doc, Opened)
    end.

(** [doc.close()] *)
Definition doc_close : io unit := fun _ => (ret tt, Closed).

Section Orchestration.
Context {U : UnicodeDB}.

(** The loop of [clean_page_transactions] over
    [enumerate(table[start_idx:], start_idx)]. *)
Fixpoint page_rows_loop (rows : table) (idx : nat) (words : list word)
    (current_date : str) (txs : list transaction) : py (list transaction) :=
  match rows with
  | [] => ret txs
  | raw_row :: rest =>
      if negb (existsb (fun cell => truthy (strip cell)) raw_row)
      then page_rows_loop rest (S idx) words current_date txs
      else
        let row := map strip raw_row in
        parsed <- parse_transaction_row row idx words current_date ;;
        match parsed with
        | None => page_rows_loop rest (S idx) words current_date txs
        | Some tx =>
            if truthy (tx_date tx) && negb (str_eqb (tx_date tx) current_date)
            then page_rows_loop rest (S idx) words (tx_date tx) (txs ++ [tx])
            else page_rows_loop rest (S idx) words current_date
                   (txs ++ [set_date tx current_date])
        end
  end.

(** The first lines of [clean_page_transactions]: the date of the table
    or, when there is none, the date found in the text of the page. *)
Definition initial_date_of (t : table) (pg : page) : py str :=
  initial_date <- extract_initial_date t ;;
  if negb (truthy initial_date)
  then
    raw_text <- call (get_text pg) ;;
    ret (match extract_date_from_raw_text raw_text with
         | Some d => d
         | None => []
         end)
  else ret initial_date.

Definition clean_page_transactions (t : table) (page_num : nat) (pg : page)
    (words : list word) : py (list transaction) :=
  initial_date <- initial_date_of t pg ;;
  start_idx <- find_transaction_start_index t ;;
  page_rows_loop (skipn start_idx t) start_idx words initial_date [].

(** The loop of [read_pdf_and_extract] over [range(doc.page_count)]. *)
Fixpoint pages_loop (pages : list (external page)) (p : nat)
    (all_txs : list transaction) : py (list transaction) :=
  match pages with
  | [] => ret all_txs
  | loaded :: rest =>
      pg <- call loaded ;;
      words <- call (get_text_words pg) ;;
      tables <- call (find_tables pg) ;;
      match tables with
      | [] => pages_loop rest (S p) all_txs
      | first :: _ =>
          raw_table <- call (extract first) ;;
          txs <- clean_page_transactions raw_table (p + 1) pg words ;;
          pages_loop rest (S p) (all_txs ++ txs)
      end
  end.

Definition read_pdf_and_extract (pdf : external document) : io (list transaction) :=
  (doc <- pymupdf_open pdf ;;
   all_txs <- io_lift (pages_loop (doc_pages doc) 0 []) ;;
   _ <- doc_close ;;
   io_ret all_txs)%io.
End Orchestration.

(* ------------------------------------------------------------------ *)
(** ** The CSV export *)

(** A row handed to [csv.DictWriter]: the keys in the order of insertion. *)
Definition rowdict := list (string * value).

(** The file system as the export meets it: the files written, by path
    (the rows handed to the CSV writer), and the paths that cannot be opened
    for writing (a directory that is missing or read-only), with the message
    of the [OSError] that [open] raises on them. *)
Record filesystem : Type := mkFs {
  content : string -> option (list (list value));
  refused : string -> option string
}.

(** [csv_path.open("w", ...)] *)
Definition open_w (fs : filesystem) (path : string) : py unit :=
  match refused fs path with
  | Some msg => raise (OSError msg)
  | None => ret tt
  end.

Definition write_file (fs : filesystem) (path : string) (rows : list (list value))
  : filesystem :=
  mkFs (fun q => if String.eqb q path then Some rows else content fs q)
       (refused fs).

(** [x or ""] on a float. *)
Definition or_empty (x : float) : value :=
  if float_truthy x then VFloat x else VStr [].

(** [DictWriter._dict_to_list]: a key that is no field name raises
    [ValueError]; a field name that is no key gives the empty string. *)
Definition dict_to_list (fieldnames : list string) (row : rowdict) : py (list value) :=
  if forallb (fun kv => existsb (String.eqb (fst kv)) fieldnames) row
  then
    ret (map (fun key =>
                match find (fun kv => String.eqb (fst kv) key) row with
                | Some (_, v) => v
                | None => VStr []
                end) fieldnames)
  else raise ValueError.

(** The dictionary [row] that [export_to_csv] builds for a transaction. *)
Definition csv_row (debug : bool) (tx : transaction) : rowdict :=
  [ ("date", VStr (tx_date tx));
    ("details", VStr (tx_details tx));
    ("debit", or_empty (tx_debit tx));
    ("credit", or_empty (tx_credit tx));
    ("balance", or_empty (tx_balance tx)) ]%string
  ++ (if debug
      then [ ("x_coord", tx_x_coord tx); ("y_coord", tx_y_coord tx) ]%string
      else []).

(** The loop [for tx in transactions: writer.writerow(row)], after the rows
    [written] so far. *)
Fixpoint write_rows (fieldnames : list string) (debug : bool)
    (transactions : list transaction) (written : list (list value))
  : py (list (list value)) :=
  match transactions with
  | [] => ret written
  | tx :: rest =>
      cells <- dict_to_list fieldnames (csv_row debug tx) ;;
      write_rows fieldnames debug rest (written ++ [cells])
  end.

Definition export_to_csv (transactions : list transaction) (csv_path : string)
    (debug : bool) (fs : filesystem) : py filesystem :=
  match transactions with
  | [] => ret fs
  | _ :: _ =>
      let fieldnames := ["date"; "details"; "debit"; "credit"; "balance"]%string in
      let fieldnames :=
        if debug then fieldnames ++ ["x_coord"; "y_coord"]%string else fieldnames in
      _ <- open_w fs csv_path ;;
      let header := map (fun name => VStr (lit name)) fieldnames in
      rows <- write_rows fieldnames debug transactions [header] ;;
      ret (write_file fs csv_path rows)
  end.

(* ------------------------------------------------------------------ *)
(** ** Vocabulary of the statements *)

(** [xmin <= x0 <= xmax] for integer bounds. *)
Definition in_band (xmin xmax : Z) (x0 : float) : bool :=
  float_leb (float_of_Z xmin) x0 && float_leb x0 (float_of_Z xmax).

Section Vocabulary.
Context {U : UnicodeDB}.

(** The transaction of a row, from the results of its two loops. *)
Definition row_result (idx : nat) (inherited_date : str) (row : list str)
    (money : float * float * float) (coords : option coordinates)
    (found : option (str * str)) : option transaction :=
  let '(debit, credit, balance) := money in
  let '(date, details) :=
    match found with
    | Some (date, details) => (date, details)
    | None => (inherited_date, details_of row)
    end in
  if negb (truthy date || truthy details || float_truthy debit
           || float_truthy credit || float_truthy balance)
  then None
  else Some (mkTx idx date details debit credit balance
               (match coords with Some c => VFloat (c_x0 c) | None => VStr [] end)
               (match coords with Some c => VFloat (c_y0 c) | None => VStr [] end)).

(** The row [i] of the table holds an anchor phrase. *)
Definition anchor_row (t : table) (i : nat) : Prop :=
  exists row,
    nth_error t i = Some row /\
    has_anchor (upper (join [chr_space] row)) = true.

(** The row [j] of the table has three cells at least, and its first three
    cells, stripped, are a day, a month and a year that compose [date]. *)
Definition date_row (t : table) (j : nat) (date : str) : Prop :=
  exists c0 c1 c2 rest,
    nth_error t j = Some (c0 :: c1 :: c2 :: rest) /\
    is_date_triple (strip c0) (strip c1) (strip c2) = true /\
    date = compose_date (strip c0) (strip c1) (strip c2).

(** An anchor row [i] among the first 12 rows and, at most 3 rows below it
    and still among the first 12, a row [j] that writes [date]. *)
Definition date_candidate (t : table) (i j : nat) (date : str) : Prop :=
  (i < 12)%nat /\ anchor_row t i /\
  (i <= j < i + 4)%nat /\ (j < 12)%nat /\ date_row t j date.

(** The body of the outer loop of [extract_initial_date]. *)
Definition anchor_window (t : table) (i : nat) : py (option str) :=
  row <- getitem t i ;;
  if has_anchor (upper (join [chr_space] row))
  then for_return (range i (Nat.min (i + 4) (Nat.min (List.length t) 12)))
         (date_cells_at t)
  else ret None.

End Vocabulary.

(** No file written yet, and no path refused. *)
Definition empty_fs : filesystem := mkFs (fun _ => None) (fun _ => None).

(** The header of the CSV file. *)
Definition csv_header (debug : bool) : list value :=
  map (fun name => VStr (lit name))
    (["date"; "details"; "debit"; "credit"; "balance"]%string
     ++ (if debug then ["x_coord"; "y_coord"]%string else [])).

(** The cells of the line of a transaction in the CSV file. *)
Definition csv_cells (debug : bool) (tx : transaction) : list value :=
  [ VStr (tx_date tx); VStr (tx_details tx);
    or_empty (tx_debit tx); or_empty (tx_credit tx); or_empty (tx_balance tx) ]
  ++ (if debug then [tx_x_coord tx; tx_y_coord tx] else []).

(** [x < y] on floats. *)
Definition float_ltb (x y : float) : bool := SFltb x y.

(* ------------------------------------------------------------------ *)
(** ** The command line driver *)

(** What the file system and [pathlib] answer to [process]: whether the
    input path is a file or a directory, [sorted(input_path.glob("*.pdf"))],
    what [pymupdf.open] answers on a path, [path.with_suffix(".csv")] and
    [input_path / (input_path.name + "_combined.csv")]. *)
Record host : Type := mkHost {
  is_file : string -> bool;
  is_dir : string -> bool;
  sorted_pdfs : string -> list string;
  open_pdf : string -> external document;
  with_suffix_csv : string -> string;
  combined_csv_path : string -> string
}.

(** The state [process] changes: the CSV files written, and for each PDF
    read so far, in order, the state in which its handle was left. *)
Record world : Type := mkWorld {
  files : filesystem;
  handles : list (string * handle)
}.

Section Driver.
Context {U : UnicodeDB}.

(** The loop [for pdf in pdfs] of [process]; [all_transactions] is the
    list gathered so far. *)
Fixpoint process_loop (H : host) (pdfs : list string) (separate debug : bool)
    (all_transactions : list transaction) (w : world)
  : py (list transaction) * world :=
  match pdfs with
  | [] => (ret all_transactions, w)
  | pdf :: rest =>
      let '(r, h) := read_pdf_and_extract (open_pdf H pdf) NotOpened in
      let w1 := mkWorld (files w) (handles w ++ [(pdf, h)]) in
      match r with
      | inl e => (inl e, w1)
      | inr txs =>
          match
            (if separate
             then export_to_csv txs (with_suffix_csv H pdf) debug (files w1)
             else ret (files w1))
          with
          | inl e => (inl e, w1)
          | inr fs =>
              process_loop H rest separate debug (all_transactions ++ txs)
                (mkWorld fs (handles w1))
          end
      end
  end.

(** [process], from [if input_path.is_dir() and not (combined or
    separate)] on, for the list [pdfs]. *)
Definition process_pdfs (H : host) (input_path : string) (pdfs : list string)
    (combined separate debug : bool) (w : world) : py unit * world :=
  let combined :=
    if is_dir H input_path && negb (combined || separate) then true
    else combined in
  match process_loop H pdfs separate debug [] w with
  | (inl e, w1) => (inl e, w1)
  | (inr all_transactions, w1) =>
      if combined
      then
        let combined_csv :=
          if is_dir H input_path then combined_csv_path H input_path
          else with_suffix_csv H input_path in
        match export_to_csv all_transactions combined_csv debug (files w1) with
        | inl e => (inl e, w1)
        | inr fs => (ret tt, mkWorld fs (handles w1))
        end
      else (ret tt, w1)
  end.

Definition process (H : host) (input_path : string)
    (combined separate debug : bool) (w : world) : py unit * world :=
  if is_file H input_path
  then process_pdfs H input_path [input_path] combined separate debug w
  else if is_dir H input_path
  then process_pdfs H input_path (sorted_pdfs H input_path)
         combined separate debug w
  else (ret tt, w).

End Driver.

(* ------------------------------------------------------------------ *)
(** ** Vocabulary of the statements, continued *)

(** [0.0 <= x]: neither a NaN nor a negative number. *)
Definition float_nonneg (x : float) : Prop := float_leb float_zero x = true.

(** A digit of ASCII or a point. *)
Definition plain_char (c : char) : bool := is_ascii_digit c || (c =? chr_dot)%N.

(** A sample page: its text gives the date "31 Dec 2023"; its table has a
    dated row, a blank row and a row without date. *)
Definition sample_page : page :=
  mkPage (inr (lit "Statement of 31 Dec 2023")) (inr []) (inr []).

Definition sample_table : table :=
  [ [lit "1"; lit "Jan"; lit "2024"; lit "Shop"; lit "50.00"];
    [lit " "; lit ""];
    [lit "Coffee"; lit "3.00"] ].

(** A sample document of one page, the sample table on the sample page. *)
Definition sample_document : document :=
  mkDoc [inr (mkPage (inr (lit "Statement of 31 Dec 2023")) (inr [])
                (inr [mkTable (inr sample_table)]))].

(** The path [p] with its last four characters (".pdf") replaced by
    ".csv". *)
Definition sample_csv_of (p : string) : string :=
  (String.substring 0 (String.length p - 4) p ++ ".csv")%string.

(** A sample host: the file "a.pdf"; the directory "dir" with the PDFs
    "dir/a.pdf" (the sample document) and "dir/b.pdf" (a page without
    table); the directory "bad" whose second PDF cannot be opened. *)
Definition sample_host : host :=
  mkHost
    (fun p => String.eqb p "a.pdf")
    (fun p => String.eqb p "dir" || String.eqb p "bad")
    (fun p =>
       if String.eqb p "dir" then ["dir/a.pdf"; "dir/b.pdf"]%string
       else if String.eqb p "bad"
            then ["bad/a.pdf"; "bad/c.pdf"; "bad/d.pdf"]%string
            else [])
    (fun p =>
       if String.eqb p "bad/c.pdf" then inl "cannot open"%string
       else if String.eqb p "dir/b.pdf" then inr (mkDoc [inr sample_page])
            else inr sample_document)
    sample_csv_of
    (fun p => (p ++ "/" ++ p ++ "_combined.csv")%string).

(** The state before any run. *)
Definition initial_world : world := mkWorld empty_fs [].

(** The content of the CSV file of a sequence of transactions. *)
Definition csv_content (debug : bool) (transactions : list transaction)
  : list (list value) :=
  csv_header debug :: map (csv_cells debug) transactions.

(** The files after an export that returns: nothing changes for the empty
    sequence. *)
Definition exported (fs : filesystem) (csv_path : string) (debug : bool)
    (transactions : list transaction) : filesystem :=
  match transactions with
  | [] => fs
  | _ :: _ => write_file fs csv_path (csv_content debug transactions)
  end.

Section Vocabulary2.
Context {U : UnicodeDB}.

(** The text [s] begins with a date: one or two decimal digits, white
    space, a month of [MONTHS], white space, four decimal digits. *)
Definition date_prefix (s day month year : str) : Prop :=
  exists ws1 ws2 rest,
    s = day ++ ws1 ++ month ++ ws2 ++ year ++ rest /\
    (List.length day = 1 \/ List.length day = 2)%nat /\
    forallb isdecimal day = true /\
    ws1 <> [] /\ forallb isspace ws1 = true /\
    In month MONTHS /\
    ws2 <> [] /\ forallb isspace ws2 = true /\
    List.length year = 4%nat /\ forallb isdecimal year = true.

(** [any(cell.strip() for cell in raw_row)] *)
Definition nonblank (raw_row : list str) : bool :=
  existsb (fun cell => truthy (strip cell)) raw_row.

(** The date a row writes itself, if any. *)
Definition own_date (raw_row : list str) : option str :=
  match scan_date (map strip raw_row) with
  | inr (Some (date, _)) => Some date
  | _ => None
  end.

(** The rows that are not blank, with their index and the date they carry:
    their own date, or the date of the nearest such row before them, or
    [current_date]. *)
Fixpoint carried_dates (rows : table) (idx : nat) (current_date : str)
  : list (nat * str) :=
  match rows with
  | [] => []
  | raw_row :: rest =>
      if nonblank raw_row
      then
        let date :=
          match own_date raw_row with
          | Some d => d
          | None => current_date
          end in
        (idx, date) :: carried_dates rest (S idx) date
      else carried_dates rest (S idx) current_date
  end.

(** The row [i] of the table holds an anchor phrase once its cells are
    stripped: the test of [find_transaction_start_index]. *)
Definition anchor_row_stripped (t : table) (i : nat) : Prop :=
  exists row,
    nth_error t i = Some row /\
    has_anchor (upper (join [chr_space] (map strip row))) = true.

(** Each PDF of [pdfs] is read without exception and gives the
    transactions of the same rank in [txss]. *)
Definition all_read (H : host) (pdfs : list string)
    (txss : list (list transaction)) : Prop :=
  Forall2 (fun pdf txs =>
             fst (read_pdf_and_extract (open_pdf H pdf) NotOpened) = inr txs)
    pdfs txss.

End Vocabulary2.

(** The files after the CSV of each PDF has been exported, in order. *)
Fixpoint separate_exports (H : host) (debug : bool) (pdfs : list string)
    (txss : list (list transaction)) (fs : filesystem) : filesystem :=
  match pdfs, txss with
  | pdf :: pdfs', txs :: txss' =>
      separate_exports H debug pdfs' txss'
        (exported fs (with_suffix_csv H pdf) debug txs)
  | _, _ => fs
  end.

(** The handles of PDFs read to the end: all closed. *)
Definition closed_handles (pdfs : list string) : list (string * handle) :=
  map (fun pdf => (pdf, Closed)) pdfs.

(* ================================================================== *)
(** * Properties *)

(** ** Lists and strings *)

Lemma str_eqb_eq (a b : str) : str_eqb a b = true <-> a = b.
Proof.
  revert b; induction a as [|x a IH]; intros [|y b]; simpl; split;
    try congruence; try discriminate.
  - intros H. apply andb_true_iff in H as [H1 H2].
    apply N.eqb_eq in H1. apply IH in H2. congruence.
  - intros H. inversion H; subst. rewrite N.eqb_refl. simpl. now apply IH.
Qed.

Lemma str_eqb_refl (a : str) : str_eqb a a = true.
Proof. now apply str_eqb_eq. Qed.

Lemma str_eqb_neq (a b : str) : str_eqb a b = false <-> a <> b.
Proof.
  split.
  - intros H E. apply str_eqb_eq in E. congruence.
  - intros H. destruct (str_eqb a b) eqn:E; [|reflexivity].
    apply str_eqb_eq in E. contradiction.
Qed.

Lemma takewhile_dropwhile {A} (p : A -> bool) (l : list A) :
  takewhile p l ++ dropwhile p l = l.
Proof.
  induction l as [|x l IH]; simpl; [reflexivity|].
  destruct (p x); simpl; [now rewrite IH | reflexivity].
Qed.

Lemma takewhile_forallb {A} (p : A -> bool) (l : list A) :
  forallb p (takewhile p l) = true.
Proof.
  induction l as [|x l IH]; simpl; [reflexivity|].
  destruct (p x) eqn:E; simpl; [now rewrite E | reflexivity].
Qed.

Lemma takewhile_all {A} (p : A -> bool) (l r : list A) :
  forallb p l = true ->
  match r with [] => True | x :: _ => p x = false end ->
  takewhile p (l ++ r) = l /\ dropwhile p (l ++ r) = r.
Proof.
  intros Hl Hr. induction l as [|x l IH]; simpl in *.
  - destruct r as [|y r]; simpl; [auto|]. now rewrite Hr.
  - apply andb_true_iff in Hl as [Hx Hl]. rewrite Hx.
    destruct (IH Hl) as [-> ->]. auto.
Qed.

Lemma startswith_spec (p s : str) :
  startswith p s = true <-> exists r, s = p ++ r.
Proof.
  revert s; induction p as [|x p IH]; intros s; simpl.
  - split; [intros _; now exists s | reflexivity].
  - destruct s as [|y s]; split.
    + discriminate.
    + intros [r Hr]; discriminate.
    + intros H. apply andb_true_iff in H as [H1 H2].
      apply N.eqb_eq in H1. apply IH in H2 as [r ->]. subst. now exists r.
    + intros [r Hr]. inversion Hr; subst. rewrite N.eqb_refl. simpl.
      apply IH. now exists r.
Qed.

Lemma contains_spec (sub s : str) :
  contains sub s = true <-> exists pre post, s = pre ++ sub ++ post.
Proof.
  induction s as [|c s IH].
  - simpl. rewrite orb_false_r. rewrite startswith_spec. split.
    + intros [r Hr]. now exists [], r.
    + intros [pre [post H]]. destruct pre; [now exists post|discriminate].
  - change (contains sub (c :: s))
      with (startswith sub (c :: s) || contains sub s).
    rewrite orb_true_iff, startswith_spec, IH. split.
    + intros [[r Hr] | [pre [post H]]].
      * now exists [], r.
      * exists (c :: pre), post. now rewrite H.
    + intros [[|x pre] [post H]].
      * left. now exists post.
      * right. inversion H; subst. now exists pre, post.
Qed.

Lemma contains_rev (sub s : str) :
  contains sub (rev s) = contains (rev sub) s.
Proof.
  apply eq_true_iff_eq. rewrite !contains_spec. split.
  - intros [pre [post H]]. exists (rev post), (rev pre).
    rewrite <- (rev_involutive s), H, !rev_app_distr. now rewrite app_assoc.
  - intros [pre [post H]]. exists (rev post), (rev pre).
    rewrite H, !rev_app_distr, rev_involutive. now rewrite app_assoc.
Qed.

(** Dropping a prefix of characters that differ from the first character of
    [sub] keeps the occurrences of [sub]. *)
Lemma contains_dropwhile (p : char -> bool) (x : char) (sub s : str) :
  p x = false ->
  contains (x :: sub) (dropwhile p s) = contains (x :: sub) s.
Proof.
  intros Hx. induction s as [|c s IH]; [reflexivity|].
  simpl dropwhile. destruct (p c) eqn:Hc; [|reflexivity].
  rewrite IH.
  change (contains (x :: sub) (c :: s))
    with (startswith (x :: sub) (c :: s) || contains (x :: sub) s).
  simpl startswith. destruct (N.eqb_spec x c) as [->|_]; [congruence|reflexivity].
Qed.

Lemma replace_single (c : char) (s : str) :
  replace [c] [] s = filter (fun x => negb (x =? c)%N) s.
Proof.
  unfold replace. induction s as [|x s IH]; [reflexivity|].
  simpl. rewrite (N.eqb_sym x c).
  destruct (c =? x)%N; simpl; now rewrite IH.
Qed.

Lemma contains_filter (p : char -> bool) (sub s : str) :
  forallb p sub = true ->
  contains sub s = true -> contains sub (filter p s) = true.
Proof.
  intros Hp. rewrite !contains_spec. intros [pre [post ->]].
  exists (filter p pre), (filter p post).
  rewrite !filter_app. f_equal. f_equal.
  clear -Hp. induction sub as [|x sub IH]; [reflexivity|].
  simpl in *. apply andb_true_iff in Hp as [-> Hp]. now rewrite IH.
Qed.

(** ** Loops *)

Lemma for_return_total {A R} (xs : list A) (body : A -> py (option R)) :
  (forall x, In x xs -> exists r, body x = inr r) ->
  exists r, for_return xs body = inr r.
Proof.
  induction xs as [|x xs IH]; intros H; simpl.
  - now exists None.
  - destruct (H x (or_introl eq_refl)) as [r Hr]. rewrite Hr. simpl.
    destruct r as [v|]; [now exists (Some v)|].
    apply IH. intros y Hy. apply H. now right.
Qed.

Lemma for_return_none {A R} (xs : list A) (body : A -> py (option R)) :
  for_return xs body = inr None <->
  (forall x, In x xs -> body x = inr None).
Proof.
  induction xs as [|x xs IH]; simpl.
  - split; [intros _ x [] | reflexivity].
  - destruct (body x) as [e|[v|]] eqn:Hx; simpl.
    + split; [discriminate|]. intros H.
      specialize (H x (or_introl eq_refl)). congruence.
    + split; [discriminate|]. intros H.
      specialize (H x (or_introl eq_refl)). congruence.
    + rewrite IH. split.
      * intros H y [<-|Hy]; [assumption | now apply H].
      * intros H y Hy. apply H. now right.
Qed.

Lemma for_return_some {A R} (xs : list A) (body : A -> py (option R)) v :
  for_return xs body = inr (Some v) <->
  exists pre x post,
    xs = pre ++ x :: post /\
    (forall y, In y pre -> body y = inr None) /\
    body x = inr (Some v).
Proof.
  induction xs as [|x xs IH]; simpl; unfold ret.
  - split; [discriminate|]. intros [pre [x [post [H _]]]].
    destruct pre; discriminate.
  - destruct (body x) as [e|[w|]] eqn:Hx; simpl; unfold ret.
    + split; [discriminate|]. intros [[|y pre] [z [post [H [Hpre Hz]]]]].
      * inversion H; subst. congruence.
      * inversion H; subst. specialize (Hpre y (or_introl eq_refl)). congruence.
    + split.
      * intros H. inversion H; subst. exists [], x, xs. repeat split; auto.
        intros y [].
      * intros [[|y pre] [z [post [H [Hpre Hz]]]]].
        -- inversion H; subst. congruence.
        -- inversion H; subst. specialize (Hpre y (or_introl eq_refl)). congruence.
    + rewrite IH. split.
      * intros [pre [z [post [H [Hpre Hz]]]]]. exists (x :: pre), z, post.
        subst. repeat split; auto. intros y [<-|Hy]; auto.
      * intros [[|y pre] [z [post [H [Hpre Hz]]]]].
        -- inversion H; subst. congruence.
        -- inversion H; subst. exists pre, z, post. repeat split; auto.
           intros w Hw. apply Hpre. now right.
Qed.

Lemma getitem_lt {A} (l : list A) (i : nat) :
  (i < List.length l)%nat -> exists a, getitem l i = inr a /\ nth_error l i = Some a.
Proof.
  intros H. unfold getitem. destruct (nth_error l i) as [a|] eqn:E.
  - now exists a.
  - apply nth_error_None in E. lia.
Qed.

Lemma in_range (lo hi i : nat) : In i (range lo hi) <-> (lo <= i < hi)%nat.
Proof. unfold range. rewrite in_seq. lia. Qed.

(** ** [float] on the cells that match [AMOUNT_RE] *)

Lemma ascii_digit_range (c : char) :
  is_ascii_digit c = true <-> (48 <= c <= 57)%N.
Proof.
  unfold is_ascii_digit, between. rewrite andb_true_iff, !N.leb_le. tauto.
Qed.

Lemma ascii_digit_not_c_space (c : char) :
  is_ascii_digit c = true -> is_c_space c = false.
Proof.
  rewrite ascii_digit_range. intros H. unfold is_c_space, between.
  apply orb_false_iff; split.
  - apply andb_false_iff. right. apply N.leb_gt. lia.
  - apply N.eqb_neq. lia.
Qed.

Lemma drop_underscores_none (prev : char) (s : str) :
  prev <> chr_underscore ->
  forallb (fun c => negb (c =? chr_underscore)%N) s = true ->
  drop_underscores prev s = Some s.
Proof.
  revert prev; induction s as [|c s IH]; intros prev Hp Hs; simpl.
  - apply N.eqb_neq in Hp. now rewrite Hp.
  - simpl in Hs. apply andb_true_iff in Hs as [Hc Hs].
    apply negb_true_iff in Hc. rewrite Hc.
    apply N.eqb_neq in Hp. rewrite Hp. simpl.
    rewrite IH; [reflexivity | now apply N.eqb_neq | assumption].
Qed.

Lemma ascii_digits_no_underscore (s : str) :
  forallb is_ascii_digit s = true ->
  forallb (fun c => negb (c =? chr_underscore)%N) s = true.
Proof.
  intros H. apply forallb_forall. intros c Hc.
  rewrite forallb_forall in H. apply H in Hc. apply ascii_digit_range in Hc.
  apply negb_true_iff, N.eqb_neq. unfold chr_underscore. lia.
Qed.

(** A numeral made of digits, a point and two digits is read as the decimal
    number it writes. *)
Lemma parse_signed_amount (ds : str) (d1 d2 : char) :
  ds <> [] -> forallb is_ascii_digit ds = true ->
  is_ascii_digit d1 = true -> is_ascii_digit d2 = true ->
  parse_signed (ds ++ [chr_dot; d1; d2]) =
  Some (float_of_decimal false (digits_value (ds ++ [d1; d2])) (-2)).
Proof.
  intros Hne Hds H1 H2.
  destruct ds as [|x ds]; [contradiction|]. clear Hne.
  simpl in Hds. apply andb_true_iff in Hds as [Hx Hds].
  pose proof Hx as Rx. apply ascii_digit_range in Rx.
  assert (Hm : (x =? chr_minus)%N = false)
    by (apply N.eqb_neq; unfold chr_minus; lia).
  assert (Hp : (x =? chr_plus)%N = false)
    by (apply N.eqb_neq; unfold chr_plus; lia).
  unfold parse_signed. simpl app. cbv beta iota. rewrite Hm, Hp.
  unfold parse_unsigned.
  assert (Hlow : forall l k, str_eqb (map ascii_lower (x :: l)) (N_of_ascii "i" :: k) = false
                          /\ str_eqb (map ascii_lower (x :: l)) (N_of_ascii "n" :: k) = false).
  { intros l k. simpl. unfold ascii_lower, between.
    replace (65 <=? x)%N with false by (symmetry; apply N.leb_gt; lia).
    simpl. split; apply andb_false_iff; left; apply N.eqb_neq; lia. }
  change (lit "inf") with (N_of_ascii "i" :: lit "nf").
  change (lit "infinity") with (N_of_ascii "i" :: lit "nfinity").
  change (lit "nan") with (N_of_ascii "n" :: lit "an").
  rewrite !(proj1 (Hlow _ _)), (proj2 (Hlow _ _)). simpl orb. cbv iota.
  assert (Hd : is_ascii_digit chr_dot = false) by reflexivity.
  destruct (takewhile_all is_ascii_digit (x :: ds) (chr_dot :: [d1; d2])) as [T D].
  { simpl. now rewrite Hx. }
  { exact Hd. }
  change (x :: ds ++ [chr_dot; d1; d2]) with ((x :: ds) ++ chr_dot :: [d1; d2]).
  rewrite T, D. rewrite N.eqb_refl.
  destruct (takewhile_all is_ascii_digit [d1; d2] []) as [T2 D2].
  { simpl. now rewrite H1, H2. }
  { exact I. }
  rewrite app_nil_r in T2, D2. rewrite T2, D2. reflexivity.
Qed.

Section FloatOfAmount.
Context {U : UnicodeDB}.

Lemma isdecimal_to_ascii (c : char) :
  isdecimal c = true -> is_ascii_digit (to_ascii_char c) = true.
Proof.
  unfold isdecimal, decimal_value, to_ascii_char.
  destruct (is_ascii c) eqn:A.
  - unfold is_ascii_digit. destruct (between 48 57 c); [reflexivity|discriminate].
  - destruct (u_decimal c) as [d|] eqn:D; [|discriminate]. intros _.
    rewrite (u_decimal_not_space c d D).
    pose proof (u_decimal_lt c d D). apply ascii_digit_range. lia.
Qed.

Lemma AMOUNT_RE_match_inv (cell : str) :
  AMOUNT_RE_match cell = true ->
  exists ds d1 d2 tl,
    cell = ds ++ chr_dot :: d1 :: d2 :: tl /\
    ds <> [] /\ forallb isdecimal ds = true /\
    isdecimal d1 = true /\ isdecimal d2 = true /\
    (tl = [] \/ tl = [chr_newline]).
Proof.
  unfold AMOUNT_RE_match. intros H. apply andb_true_iff in H as [Hne H].
  pose proof (takewhile_dropwhile isdecimal cell) as E.
  pose proof (takewhile_forallb isdecimal cell) as F.
  destruct (dropwhile isdecimal cell) as [|dot [|d1 [|d2 tl]]]; try discriminate.
  apply andb_true_iff in H as [H Htl].
  apply andb_true_iff in H as [H H2].
  apply andb_true_iff in H as [Hdot H1].
  apply N.eqb_eq in Hdot. subst dot.
  exists (takewhile isdecimal cell), d1, d2, tl. repeat split; auto.
  - intros C. rewrite C in Hne. discriminate.
  - destruct tl as [|nl [|? ?]]; [now left| |discriminate].
    apply N.eqb_eq in Htl. subst. now right.
Qed.

(** The texts [AMOUNT_RE] matches: digits, a point and two digits, then the
    end of the text or the line feed that ends it. *)
Lemma AMOUNT_RE_match_spec (cell : str) :
  AMOUNT_RE_match cell = true <->
  exists ds d1 d2 tl,
    cell = ds ++ chr_dot :: d1 :: d2 :: tl /\
    ds <> [] /\ forallb isdecimal ds = true /\
    isdecimal d1 = true /\ isdecimal d2 = true /\
    (tl = [] \/ tl = [chr_newline]).
Proof.
  split; [apply AMOUNT_RE_match_inv|].
  intros (ds & d1 & d2 & tl & -> & Hne & Hds & H1 & H2 & Htl).
  unfold AMOUNT_RE_match.
  destruct (takewhile_all isdecimal ds (chr_dot :: d1 :: d2 :: tl) Hds)
    as [T D]; [reflexivity|].
  rewrite T, D, H1, H2, N.eqb_refl.
  destruct ds; [contradiction|].
  destruct Htl as [->| ->]; reflexivity.
Qed.

(** [float(cell)] does not raise on a cell that matches [AMOUNT_RE]. *)
Lemma py_float_amount (cell : str) :
  AMOUNT_RE_match cell = true -> exists v, py_float cell = inr v.
Proof.
  intros H. apply AMOUNT_RE_match_inv in H
    as (ds & d1 & d2 & tl & -> & Hne & Hds & H1 & H2 & Htl).
  set (D := map to_ascii_char ds).
  assert (HD : forallb is_ascii_digit D = true).
  { apply forallb_forall. intros c Hc. apply in_map_iff in Hc as [c0 [<- Hc0]].
    apply isdecimal_to_ascii. rewrite forallb_forall in Hds. now apply Hds. }
  assert (HDne : D <> []).
  { unfold D. destruct ds; [contradiction|discriminate]. }
  apply isdecimal_to_ascii in H1, H2.
  set (a1 := to_ascii_char d1) in *. set (a2 := to_ascii_char d2) in *.
  exists (float_of_decimal false (digits_value (D ++ [a1; a2])) (-2)).
  unfold py_float.
  assert (Ha : map to_ascii_char (ds ++ chr_dot :: d1 :: d2 :: tl)
               = D ++ [chr_dot; a1; a2] ++ tl).
  { rewrite map_app. simpl. fold D a1 a2. f_equal. f_equal. f_equal. f_equal.
    destruct Htl as [->| ->]; reflexivity. }
  rewrite Ha.
  assert (Hl : dropwhile is_c_space (D ++ [chr_dot; a1; a2] ++ tl)
               = D ++ [chr_dot; a1; a2] ++ tl).
  { destruct D as [|x D']; [contradiction|]. simpl in HD.
    apply andb_true_iff in HD as [Hx _].
    simpl. now rewrite (ascii_digit_not_c_space _ Hx). }
  rewrite Hl.
  assert (Hr : rev (dropwhile is_c_space (rev (D ++ [chr_dot; a1; a2] ++ tl)))
               = D ++ [chr_dot; a1; a2]).
  { rewrite app_assoc, rev_app_distr.
    assert (Hd : dropwhile is_c_space (rev (D ++ [chr_dot; a1; a2]))
                 = rev (D ++ [chr_dot; a1; a2])).
    { rewrite rev_app_distr. simpl. now rewrite (ascii_digit_not_c_space _ H2). }
    destruct Htl as [->| ->]; simpl rev at 1.
    - simpl app at 1. rewrite Hd. apply rev_involutive.
    - simpl app at 1. simpl dropwhile at 1.
      change (is_c_space chr_newline) with true. cbv iota.
      rewrite Hd. apply rev_involutive. }
  rewrite Hr.
  rewrite drop_underscores_none.
  - now rewrite parse_signed_amount.
  - discriminate.
  - rewrite forallb_app. apply andb_true_iff. split.
    + now apply ascii_digits_no_underscore.
    + apply ascii_digit_range in H1, H2. simpl. unfold chr_underscore.
      rewrite !andb_true_r. rewrite !andb_true_iff. repeat split;
        apply negb_true_iff, N.eqb_neq; lia.
Qed.

End FloatOfAmount.

(** ** The row parser *)

Lemma find_first_split {A} (p : A -> bool) (l : list A) (x : A) :
  find p l = Some x <->
  exists pre post,
    l = pre ++ x :: post /\ forallb (fun a => negb (p a)) pre = true /\ p x = true.
Proof.
  induction l as [|a l IH]; simpl.
  - split; [discriminate|]. intros [pre [post [H _]]]. destruct pre; discriminate.
  - destruct (p a) eqn:Pa.
    + split.
      * intros H. inversion H; subst. exists [], l. auto.
      * intros [[|b pre] [post [H [Hpre Hx]]]].
        -- inversion H; subst. reflexivity.
        -- inversion H; subst. simpl in Hpre. rewrite Pa in Hpre. discriminate.
    + rewrite IH. split.
      * intros [pre [post [H [Hpre Hx]]]]. exists (a :: pre), post. subst.
        simpl. rewrite Pa. auto.
      * intros [[|b pre] [post [H [Hpre Hx]]]].
        -- inversion H; subst. congruence.
        -- inversion H; subst. simpl in Hpre. rewrite Pa in Hpre.
           exists pre, post. auto.
Qed.

Lemma find_none_forallb {A} (p : A -> bool) (l : list A) :
  find p l = None <-> forallb (fun a => negb (p a)) l = true.
Proof.
  induction l as [|a l IH]; simpl; [tauto|].
  destruct (p a); simpl; [split; discriminate | exact IH].
Qed.

Lemma assign_amount_two_zero (col : column) (amt : float) :
  let '(debit, credit, balance) := assign_amount col amt in
  (debit = float_zero /\ credit = float_zero) \/
  (debit = float_zero /\ balance = float_zero) \/
  (credit = float_zero /\ balance = float_zero).
Proof. destruct col; simpl; auto. Qed.

Section RowParser.
Context {U : UnicodeDB}.

Lemma compose_date_truthy (d m y : str) : truthy (compose_date d m y) = true.
Proof. unfold compose_date. destruct d; reflexivity. Qed.

Lemma scan_amount_none (row : list str) (words : list word) :
  find AMOUNT_RE_match row = None ->
  scan_amount row words = inr (float_zero, float_zero, float_zero, None).
Proof. intros H. unfold scan_amount. now rewrite H. Qed.

Lemma scan_amount_some (row : list str) (words : list word) (cell : str) :
  find AMOUNT_RE_match row = Some cell ->
  exists amt,
    py_float cell = inr amt /\
    scan_amount row words =
    inr (assign_amount
           (match find_amount_coordinates words amt with
            | Some c => c_column c
            | None => DEBIT
            end) amt,
         find_amount_coordinates words amt).
Proof.
  intros H. unfold scan_amount. rewrite H.
  apply find_some in H as [_ Hm].
  destruct (py_float_amount cell Hm) as [amt Ha].
  exists amt. rewrite Ha. auto.
Qed.

Lemma scan_amount_total (row : list str) (words : list word) :
  exists money coords,
    scan_amount row words = inr (money, coords) /\
    (let '(debit, credit, balance) := money in
     (debit = float_zero /\ credit = float_zero) \/
     (debit = float_zero /\ balance = float_zero) \/
     (credit = float_zero /\ balance = float_zero)).
Proof.
  destruct (find AMOUNT_RE_match row) as [cell|] eqn:F.
  - destruct (scan_amount_some row words cell F) as [amt [_ ->]].
    eexists _, _. split; [reflexivity|]. apply assign_amount_two_zero.
  - rewrite (scan_amount_none row words F).
    eexists _, _. split; [reflexivity|]. simpl. auto.
Qed.

(** Only the first cell that matches [AMOUNT_RE] counts: the cells after it
    and the cells before it give nothing. *)
Lemma scan_amount_first (pre post : list str) (cell : str) (words : list word) :
  forallb (fun c => negb (AMOUNT_RE_match c)) pre = true ->
  AMOUNT_RE_match cell = true ->
  scan_amount (pre ++ cell :: post) words = scan_amount [cell] words.
Proof.
  intros Hpre Hc. unfold scan_amount.
  assert (F : find AMOUNT_RE_match (pre ++ cell :: post) = Some cell).
  { apply find_first_split. now exists pre, post. }
  rewrite F. simpl. now rewrite Hc.
Qed.

Lemma scan_date_total (row : list str) : exists r, scan_date row = inr r.
Proof.
  unfold scan_date. apply for_return_total. intros i Hi.
  apply in_range in Hi.
  destruct (getitem_lt row i) as [c0 [-> _]]; [lia|].
  destruct (getitem_lt row (i + 1)) as [c1 [-> _]]; [lia|].
  destruct (getitem_lt row (i + 2)) as [c2 [-> _]]; [lia|].
  simpl. destruct (is_date_triple _ _ _); eauto.
Qed.

Lemma scan_date_some_truthy (row : list str) (date details : str) :
  scan_date row = inr (Some (date, details)) -> truthy date = true.
Proof.
  unfold scan_date. intros H. apply for_return_some in H
    as (pre & i & post & _ & _ & H).
  destruct (getitem row i) as [|c0]; [discriminate|].
  destruct (getitem row (i + 1)) as [|c1]; [discriminate|].
  destruct (getitem row (i + 2)) as [|c2]; [discriminate|].
  simpl in H. destruct (is_date_triple _ _ _); [|discriminate].
  inversion H; subst. apply compose_date_truthy.
Qed.

Lemma parse_transaction_row_eq (row : list str) (idx : nat) (words : list word)
    (inherited_date : str) money coords found :
  scan_amount row words = inr (money, coords) ->
  scan_date row = inr found ->
  parse_transaction_row row idx words inherited_date =
  inr (row_result idx inherited_date row money coords found).
Proof.
  intros Ha Hd. unfold parse_transaction_row. rewrite Ha. simpl.
  rewrite Hd. simpl. destruct money as [[debit credit] balance].
  unfold row_result.
  destruct found as [[date details]|].
  - pose proof (scan_date_some_truthy _ _ _ Hd) as Ht.
    simpl. rewrite !Ht. simpl. rewrite ?Ht. simpl.
    destruct (truthy details), (float_truthy debit), (float_truthy credit),
      (float_truthy balance); reflexivity.
  - simpl.
    destruct (truthy inherited_date), (truthy (details_of row)),
      (float_truthy debit), (float_truthy credit), (float_truthy balance);
      reflexivity.
Qed.

Lemma parse_transaction_row_total (row : list str) (idx : nat)
    (words : list word) (inherited_date : str) :
  exists parsed, parse_transaction_row row idx words inherited_date = inr parsed.
Proof.
  destruct (scan_amount_total row words) as (money & coords & Ha & _).
  destruct (scan_date_total row) as [found Hd].
  rewrite (parse_transaction_row_eq row idx words inherited_date _ _ _ Ha Hd). eauto.
Qed.

End RowParser.

(** ** The column classifier *)

Lemma find_amount_coordinates_none (words : list word) (amount : float) :
  find_amount_coordinates words amount = None <->
  Forall (fun w => replace (lit ",") [] (w_txt w) <> format_2f amount) words.
Proof.
  induction words as [|w words IH]; simpl.
  - split; auto.
  - destruct (str_eqb _ _) eqn:E.
    + split; [discriminate|]. intros H. inversion H; subst.
      apply str_eqb_eq in E. contradiction.
    + apply str_eqb_neq in E. rewrite IH. split.
      * intros H. now constructor.
      * intros H. now inversion H.
Qed.

Lemma find_amount_coordinates_first (pre post : list word) (w : word)
    (amount : float) :
  Forall (fun v => replace (lit ",") [] (w_txt v) <> format_2f amount) pre ->
  replace (lit ",") [] (w_txt w) = format_2f amount ->
  find_amount_coordinates (pre ++ w :: post) amount =
  Some (mkCoords (w_x0 w) (w_y0 w) (w_x1 w) (w_y1 w) (band_of (w_x0 w))).
Proof.
  intros Hpre Hw. induction Hpre as [|v pre Hv _ IH]; simpl.
  - apply str_eqb_eq in Hw. now rewrite Hw.
  - apply str_eqb_neq in Hv. now rewrite Hv.
Qed.

Lemma band_of_cases (x0 : float) :
  band_of x0 =
  if in_band 250 324 x0 then DEBIT
  else if in_band 325 350 x0 then CREDIT
  else if float_leb (float_of_Z 395) x0 && float_leb x0 float_inf then BALANCE
  else UNKNOWN.
Proof.
  unfold band_of, COLUMN_BOUNDS, in_band. cbn [find].
  destruct (float_leb (float_of_Z 250) x0 && float_leb x0 (float_of_Z 324));
    [reflexivity|].
  destruct (float_leb (float_of_Z 325) x0 && float_leb x0 (float_of_Z 350));
    [reflexivity|].
  destruct (float_leb (float_of_Z 395) x0 && float_leb x0 float_inf);
    reflexivity.
Qed.

(** Two positive floats of one exponent: nothing is above the greater and
    below the smaller. *)
Lemma float_leb_gap (lo hi : positive) (e : Z) (x : float) :
  (lo < hi)%positive ->
  float_leb (S754_finite false hi e) x = true ->
  float_leb x (S754_finite false lo e) = false.
Proof.
  intros Hlt. unfold float_leb, SFleb.
  destruct x as [s|s| |s m ex]; simpl; try discriminate.
  - destruct s; [discriminate | reflexivity].
  - destruct s; [discriminate|].
    rewrite (Z.compare_antisym e ex).
    destruct (Z.compare_spec e ex) as [->|Hc|Hc]; simpl.
    + rewrite !Pos.compare_cont_spec. simpl.
      destruct (Pos.compare_spec hi m) as [->|H1|H1]; try discriminate; intros _.
      * destruct (Pos.compare_spec m lo); try reflexivity; lia.
      * destruct (Pos.compare_spec m lo); try reflexivity; lia.
    + reflexivity.
    + discriminate.
Qed.

Lemma float_leb_inf (lo : positive) (e : Z) (x : float) :
  float_leb (S754_finite false lo e) x = true -> float_leb x float_inf = true.
Proof.
  unfold float_leb, SFleb, float_inf.
  destruct x as [s|s| |s m ex]; simpl; try discriminate; try reflexivity.
  destruct s; [discriminate | reflexivity].
Qed.

Lemma band_of_spec (x0 : float) :
  (band_of x0 = DEBIT <-> in_band 250 324 x0 = true) /\
  (band_of x0 = CREDIT <-> in_band 325 350 x0 = true) /\
  (band_of x0 = BALANCE <-> float_leb (float_of_Z 395) x0 = true) /\
  (band_of x0 = UNKNOWN <->
   in_band 250 324 x0 = false /\ in_band 325 350 x0 = false /\
   float_leb (float_of_Z 395) x0 = false).
Proof.
  rewrite band_of_cases.
  assert (G1 : float_leb (float_of_Z 325) x0 = true ->
               float_leb x0 (float_of_Z 324) = false).
  { apply float_leb_gap. reflexivity. }
  assert (G2 : float_leb (float_of_Z 395) x0 = true ->
               float_leb x0 (float_of_Z 324) = false).
  { apply float_leb_gap. reflexivity. }
  assert (G3 : float_leb (float_of_Z 395) x0 = true ->
               float_leb x0 (float_of_Z 350) = false).
  { apply float_leb_gap. reflexivity. }
  assert (G4 : float_leb (float_of_Z 395) x0 = true ->
               float_leb x0 float_inf = true).
  { apply float_leb_inf. }
  unfold in_band in *.
  destruct (float_leb (float_of_Z 250) x0), (float_leb x0 (float_of_Z 324)),
    (float_leb (float_of_Z 325) x0), (float_leb x0 (float_of_Z 350)),
    (float_leb (float_of_Z 395) x0), (float_leb x0 float_inf);
    simpl in *;
    try (specialize (G1 eq_refl)); try (specialize (G2 eq_refl));
    try (specialize (G3 eq_refl)); try (specialize (G4 eq_refl));
    try discriminate;
    repeat split; intros; try discriminate; try reflexivity;
    repeat match goal with H : _ /\ _ |- _ => destruct H end; try discriminate.
Qed.

Section RowClaims.
Context {U : UnicodeDB}.

(** When no word carries the amount, the amount is the debit. *)
Lemma scan_amount_unmatched (row : list str) (words : list word)
    (cell : str) (amt : float) :
  find AMOUNT_RE_match row = Some cell ->
  py_float cell = inr amt ->
  find_amount_coordinates words amt = None ->
  scan_amount row words = inr (amt, float_zero, float_zero, None).
Proof.
  intros F A C. unfold scan_amount. rewrite F, A. simpl. now rewrite C.
Qed.

(** When the word that carries the amount lies in no band, none of the
    three fields receives the amount. *)
Lemma scan_amount_unknown (row : list str) (words : list word)
    (cell : str) (amt : float) (c : coordinates) :
  find AMOUNT_RE_match row = Some cell ->
  py_float cell = inr amt ->
  find_amount_coordinates words amt = Some c ->
  c_column c = UNKNOWN ->
  scan_amount row words = inr (float_zero, float_zero, float_zero, Some c).
Proof.
  intros F A C K. unfold scan_amount. rewrite F, A. simpl. now rewrite C, K.
Qed.

Lemma row_result_money (idx : nat) (inherited_date : str) (row : list str)
    (money : float * float * float) (coords : option coordinates)
    (found : option (str * str)) (tx : transaction) :
  row_result idx inherited_date row money coords found = Some tx ->
  (tx_debit tx, tx_credit tx, tx_balance tx) = money.
Proof.
  unfold row_result. destruct money as [[debit credit] balance].
  destruct found as [[date details]|];
    match goal with |- context [negb ?b] => destruct (negb b) end;
    try discriminate; intros H; inversion H; reflexivity.
Qed.

Lemma row_result_coords (idx : nat) (inherited_date : str) (row : list str)
    (money : float * float * float) (coords : option coordinates)
    (found : option (str * str)) (tx : transaction) :
  row_result idx inherited_date row money coords found = Some tx ->
  tx_x_coord tx = match coords with Some c => VFloat (c_x0 c) | None => VStr [] end /\
  tx_y_coord tx = match coords with Some c => VFloat (c_y0 c) | None => VStr [] end.
Proof.
  unfold row_result. destruct money as [[debit credit] balance].
  destruct found as [[date details]|];
    match goal with |- context [negb ?b] => destruct (negb b) end;
    try discriminate; intros H; inversion H; split; reflexivity.
Qed.

(** A row that gives no transaction has no amount that is not zero. *)
Lemma row_result_none_money (idx : nat) (inherited_date : str) (row : list str)
    (debit credit balance : float) (coords : option coordinates)
    (found : option (str * str)) :
  row_result idx inherited_date row (debit, credit, balance) coords found = None ->
  float_truthy debit = false /\ float_truthy credit = false /\
  float_truthy balance = false.
Proof.
  unfold row_result.
  destruct found as [[date details]|];
    destruct (float_truthy debit), (float_truthy credit),
      (float_truthy balance);
    rewrite ?orb_true_r; simpl; try discriminate; auto.
Qed.

(** C4: for every row, parsing returns.  When the row has a cell matching
    the strict amount pattern, the number of the first such cell (the cells
    before it match nothing, the cells after it are not read) is the only
    amount of the row: the classifier is asked about this number, and the
    transaction carries it in the column the classifier answers (in the
    debit when no word carries it, in no field when its word lies in no
    band), the two other fields being zero, with the coordinates the
    classifier answers; a row that gives no transaction had a zero amount or
    an amount in no column.  A row without such a cell has the three fields
    zero and no coordinates.  In every transaction at most one of debit,
    credit and balance is not zero. *)
Theorem C4_one_amount_per_row (row : list str) (idx : nat) (words : list word)
    (inherited_date : str) :
  exists parsed,
    parse_transaction_row row idx words inherited_date = inr parsed /\
    (forall pre cell post,
       row = pre ++ cell :: post ->
       forallb (fun c => negb (AMOUNT_RE_match c)) pre = true ->
       AMOUNT_RE_match cell = true ->
       exists amt,
         py_float cell = inr amt /\
         let coords := find_amount_coordinates words amt in
         let col := match coords with Some c => c_column c | None => DEBIT end in
         match parsed with
         | Some tx =>
             (tx_debit tx, tx_credit tx, tx_balance tx) =
             match col with
             | DEBIT => (amt, float_zero, float_zero)
             | CREDIT => (float_zero, amt, float_zero)
             | BALANCE => (float_zero, float_zero, amt)
             | UNKNOWN => (float_zero, float_zero, float_zero)
             end /\
             tx_x_coord tx =
               match coords with Some c => VFloat (c_x0 c) | None => VStr [] end /\
             tx_y_coord tx =
               match coords with Some c => VFloat (c_y0 c) | None => VStr [] end
         | None => float_truthy amt = false \/ col = UNKNOWN
         end) /\
    (forallb (fun c => negb (AMOUNT_RE_match c)) row = true ->
     forall tx, parsed = Some tx ->
       (tx_debit tx, tx_credit tx, tx_balance tx) =
       (float_zero, float_zero, float_zero) /\
       tx_x_coord tx = VStr [] /\ tx_y_coord tx = VStr []) /\
    (forall tx, parsed = Some tx ->
       (tx_debit tx = float_zero /\ tx_credit tx = float_zero) \/
       (tx_debit tx = float_zero /\ tx_balance tx = float_zero) \/
       (tx_credit tx = float_zero /\ tx_balance tx = float_zero)).
Proof.
  destruct (scan_amount_total row words) as (money & coords & Ha & Hz).
  destruct (scan_date_total row) as [found Hd].
  exists (row_result idx inherited_date row money coords found).
  split; [now apply parse_transaction_row_eq|]. split; [|split].
  - intros pre cell post -> Hpre Hc.
    assert (F : find AMOUNT_RE_match (pre ++ cell :: post) = Some cell).
    { apply find_first_split. now exists pre, post. }
    destruct (scan_amount_some _ words cell F) as (amt & Hf & Hs).
    rewrite Hs in Ha. inversion Ha as [[Hm Hco]]. clear Ha.
    exists amt. split; [exact Hf|]. cbv zeta.
    destruct (row_result idx inherited_date (pre ++ cell :: post)
                (assign_amount
                   match find_amount_coordinates words amt with
                   | Some c => c_column c
                   | None => DEBIT
                   end amt)
                (find_amount_coordinates words amt) found) as [tx|] eqn:R.
    + split.
      * rewrite (row_result_money _ _ _ _ _ _ _ R).
        destruct (match find_amount_coordinates words amt with
                  | Some c => c_column c
                  | None => DEBIT
                  end); reflexivity.
      * exact (row_result_coords _ _ _ _ _ _ _ R).
    + destruct (match find_amount_coordinates words amt with
                | Some c => c_column c
                | None => DEBIT
                end) eqn:K; cbn [assign_amount] in R;
        apply row_result_none_money in R as (R1 & R2 & R3); auto.
  - intros Hn tx Htx. apply find_none_forallb in Hn.
    rewrite (scan_amount_none row words Hn) in Ha. inversion Ha; subst.
    split; [exact (row_result_money _ _ _ _ _ _ _ Htx)|].
    exact (row_result_coords _ _ _ _ _ _ _ Htx).
  - intros tx Htx. apply row_result_money in Htx as E.
    rewrite <- E in Hz. exact Hz.
Qed.

End RowClaims.

(** Witness of C4: the row [("Shop", "5.00", "9.99")] on a page without
    words: the debit is 5.00 and the second amount is not read. *)
Lemma C4_one_amount_per_row_witness :
  exists tx,
    parse_transaction_row [lit "Shop"; lit "5.00"; lit "9.99"] 0 []
      (lit "1 Jan 2024") = inr (Some tx) /\
    tx_debit tx = float_of_decimal false 500 (-2) /\
    tx_credit tx = float_zero /\ tx_balance tx = float_zero /\
    tx_x_coord tx = VStr [].
Proof.
  destruct (C4_one_amount_per_row [lit "Shop"; lit "5.00"; lit "9.99"] 0 []
              (lit "1 Jan 2024"))
    as (parsed & Hp & Hfirst & _).
  destruct (Hfirst [lit "Shop"] (lit "5.00") [lit "9.99"]
              eq_refl eq_refl eq_refl) as (amt & Hf & Hm).
  assert (Hv : py_float (lit "5.00") = inr (float_of_decimal false 500 (-2)))
    by (vm_compute; reflexivity).
  rewrite Hv in Hf. inversion Hf as [Ea]. subst amt. clear Hf Hv.
  cbn [find_amount_coordinates] in Hm.
  destruct parsed as [tx|].
  - destruct Hm as (Hmoney & Hx & _).
    exists tx. split; [exact Hp|].
    split; [exact (f_equal (fun m => fst (fst m)) Hmoney)|].
    split; [exact (f_equal (fun m => snd (fst m)) Hmoney)|].
    split; [exact (f_equal snd Hmoney) | exact Hx].
  - exfalso. destruct Hm as [Hm|Hm]; [|discriminate Hm].
    vm_compute in Hm. discriminate Hm.
Defined.

(** C1: the row [("Shop", "5.00")] on a page whose only word "5.00" starts
    at x0 = 10, in no band.  The amount is classified [UNKNOWN] and the
    transaction carries it in no field: debit, credit and balance stay
    zero. *)
Theorem C1_unknown_column_drops_amount :
  let words := [mkWord (float_of_Z 10) (float_of_Z 100) (float_of_Z 30)
                  (float_of_Z 110) (lit "5.00") 0 0 0] in
  exists amt,
    py_float (lit "5.00") = inr amt /\
    float_truthy amt = true /\
    option_map c_column (find_amount_coordinates words amt) = Some UNKNOWN /\
    parse_transaction_row [lit "Shop"; lit "5.00"] 0 words (lit "1 Jan 2024") =
    inr (Some (mkTx 0 (lit "1 Jan 2024") (lit "Shop")
                 float_zero float_zero float_zero
                 (VFloat (float_of_Z 10)) (VFloat (float_of_Z 100)))).
Proof.
  eexists. split; [vm_compute; reflexivity|].
  split; [reflexivity|]. split; vm_compute; reflexivity.
Qed.

(** C5: the classifier answers none exactly when no word, commas removed,
    is the amount written with two decimals; otherwise it answers the
    coordinates of the first such word and the column of its x0: DEBIT on
    [250, 324], CREDIT on [325, 350], BALANCE from 395 on, UNKNOWN
    elsewhere. *)
Theorem C5_column_classification :
  (forall words amount,
     find_amount_coordinates words amount = None <->
     Forall (fun w => replace (lit ",") [] (w_txt w) <> format_2f amount) words) /\
  (forall pre w post amount,
     Forall (fun v => replace (lit ",") [] (w_txt v) <> format_2f amount) pre ->
     replace (lit ",") [] (w_txt w) = format_2f amount ->
     find_amount_coordinates (pre ++ w :: post) amount =
     Some (mkCoords (w_x0 w) (w_y0 w) (w_x1 w) (w_y1 w) (band_of (w_x0 w)))) /\
  (forall x0,
     (band_of x0 = DEBIT <-> in_band 250 324 x0 = true) /\
     (band_of x0 = CREDIT <-> in_band 325 350 x0 = true) /\
     (band_of x0 = BALANCE <-> float_leb (float_of_Z 395) x0 = true) /\
     (band_of x0 = UNKNOWN <->
      in_band 250 324 x0 = false /\ in_band 325 350 x0 = false /\
      float_leb (float_of_Z 395) x0 = false)) /\
  band_of (float_of_Z 260) = DEBIT /\
  band_of (float_of_Z 330) = CREDIT /\
  band_of (float_of_Z 500) = BALANCE /\
  band_of (float_of_Z 10) = UNKNOWN.
Proof.
  split; [exact find_amount_coordinates_none|].
  split; [intros pre w post amount; apply find_amount_coordinates_first|].
  split; [exact band_of_spec|].
  repeat (apply conj; [vm_compute; reflexivity|]). vm_compute. reflexivity.
Qed.

(** Witness of C5: the amount 1234.56 on a page where the word "1,234.56"
    at x0 = 10 follows a word that is no amount. *)
Lemma C5_column_classification_witness :
  find_amount_coordinates
    ([mkWord (float_of_Z 30) (float_of_Z 90) (float_of_Z 60) (float_of_Z 99)
        (lit "Total") 0 0 0]
     ++ mkWord (float_of_Z 10) (float_of_Z 100) (float_of_Z 40) (float_of_Z 110)
          (lit "1,234.56") 0 0 1 :: [])
    (float_of_decimal false 123456 (-2)) =
  Some (mkCoords (float_of_Z 10) (float_of_Z 100) (float_of_Z 40) (float_of_Z 110)
          (band_of (float_of_Z 10))) /\
  band_of (float_of_Z 10) = UNKNOWN.
Proof.
  destruct C5_column_classification as (_ & Hfirst & Hband & _).
  split.
  - apply (Hfirst
             [mkWord (float_of_Z 30) (float_of_Z 90) (float_of_Z 60)
                (float_of_Z 99) (lit "Total") 0 0 0]
             (mkWord (float_of_Z 10) (float_of_Z 100) (float_of_Z 40)
                (float_of_Z 110) (lit "1,234.56") 0 0 1)).
    + constructor; [|constructor]. vm_compute. discriminate.
    + vm_compute. reflexivity.
  - apply (proj2 (proj2 (proj2 (Hband (float_of_Z 10))))).
    repeat (apply conj; [vm_compute; reflexivity|]). vm_compute. reflexivity.
Defined.

(** ** The date extractor *)

Lemma seq_split (a n : nat) (pre post : list nat) (x : nat) :
  seq a n = pre ++ x :: post ->
  pre = seq a (List.length pre) /\ x = (a + List.length pre)%nat /\
  (List.length pre < n)%nat.
Proof.
  revert a n. induction pre as [|y pre IH]; intros a n H.
  - destruct n as [|n]; [discriminate|]. simpl in H. inversion H; subst.
    simpl. repeat split; lia.
  - destruct n as [|n]; [discriminate|]. simpl in H. inversion H; subst.
    destruct (IH _ _ H2) as (Hp & Hx & Hl). simpl.
    repeat split; [now rewrite <- Hp | lia | lia].
Qed.

Lemma range_split (lo hi : nat) (pre post : list nat) (x : nat) :
  range lo hi = pre ++ x :: post ->
  (lo <= x < hi)%nat /\ (forall y, In y pre <-> (lo <= y < x)%nat).
Proof.
  unfold range. intros H. apply seq_split in H as (Hp & Hx & Hl).
  split; [lia|]. intros y. rewrite Hp, in_seq. lia.
Qed.

Lemma range_at (lo hi x : nat) :
  (lo <= x < hi)%nat ->
  range lo hi = range lo x ++ x :: range (S x) hi.
Proof.
  intros H. unfold range.
  replace (hi - lo)%nat with ((x - lo) + S (hi - S x))%nat by lia.
  rewrite seq_app. simpl. repeat f_equal; lia.
Qed.

Lemma for_return_ext {A R} (xs : list A) (f g : A -> py (option R)) :
  (forall x, In x xs -> f x = g x) -> for_return xs f = for_return xs g.
Proof.
  induction xs as [|x xs IH]; intros H; simpl; [reflexivity|].
  rewrite (H x (or_introl eq_refl)). destruct (g x) as [e|[v|]]; simpl; auto.
  apply IH. intros y Hy. apply H. now right.
Qed.

(** Over a range, a loop answers [v] exactly at the first index whose body
    answers [v], the bodies before it answering nothing. *)
Lemma for_return_range_some {R} (lo hi : nat) (body : nat -> py (option R)) v :
  for_return (range lo hi) body = inr (Some v) <->
  exists x, (lo <= x < hi)%nat /\ body x = inr (Some v) /\
            forall y, (lo <= y < x)%nat -> body y = inr None.
Proof.
  rewrite for_return_some. split.
  - intros (pre & x & post & E & Hpre & Hx).
    apply range_split in E as [Hr Hin]. exists x. repeat split; try lia; auto.
    intros y Hy. apply Hpre. now apply Hin.
  - intros (x & Hr & Hx & Hpre).
    exists (range lo x), x, (range (S x) hi). repeat split; auto.
    + now apply range_at.
    + intros y Hy. apply in_range in Hy. now apply Hpre.
Qed.

Lemma for_return_range_none {R} (lo hi : nat) (body : nat -> py (option R)) :
  for_return (range lo hi) body = inr None <->
  forall x, (lo <= x < hi)%nat -> body x = inr None.
Proof.
  rewrite for_return_none. split; intros H x Hx; apply H; now apply in_range.
Qed.

Section DateExtractor.
Context {U : UnicodeDB}.

Lemma date_cells_at_some (t : table) (j : nat) (date : str) :
  date_cells_at t j = inr (Some date) <-> date_row t j date.
Proof.
  unfold date_cells_at, date_row, getitem. split.
  - destruct (nth_error t j) as [cells|] eqn:E; simpl; [|discriminate].
    destruct cells as [|c0 [|c1 [|c2 rest]]]; simpl; try discriminate.
    destruct (is_date_triple _ _ _) eqn:T; [|discriminate].
    intros H. inversion H. exists c0, c1, c2, rest. auto.
  - intros (c0 & c1 & c2 & rest & -> & T & ->). simpl. now rewrite T.
Qed.

Lemma date_cells_at_none (t : table) (j : nat) :
  (j < List.length t)%nat ->
  date_cells_at t j = inr None <-> forall date, ~ date_row t j date.
Proof.
  intros Hj. split.
  - intros H date D. apply date_cells_at_some in D. congruence.
  - intros H. destruct (getitem_lt t j Hj) as (cells & G & N).
    unfold date_cells_at. rewrite G. simpl.
    destruct cells as [|c0 [|c1 [|c2 rest]]]; simpl; try reflexivity.
    destruct (is_date_triple _ _ _) eqn:T; [|reflexivity].
    exfalso. apply (H (compose_date (strip c0) (strip c1) (strip c2))).
    exists c0, c1, c2, rest. auto.
Qed.

Lemma date_cells_at_total (t : table) (j : nat) :
  (j < List.length t)%nat -> exists r, date_cells_at t j = inr r.
Proof.
  intros Hj. destruct (getitem_lt t j Hj) as (cells & G & _).
  unfold date_cells_at. rewrite G. simpl.
  destruct cells as [|c0 [|c1 [|c2 rest]]]; simpl; eauto.
  destruct (is_date_triple _ _ _); eauto.
Qed.

Lemma date_row_truthy (t : table) (j : nat) (date : str) :
  date_row t j date -> date <> [].
Proof.
  intros (c0 & c1 & c2 & rest & _ & _ & ->) E.
  pose proof (compose_date_truthy (strip c0) (strip c1) (strip c2)) as T.
  rewrite E in T. discriminate.
Qed.

Lemma extract_initial_date_eq (t : table) :
  extract_initial_date t =
  (found <- for_return (range 0 (Nat.min (List.length t) 12)) (anchor_window t) ;;
   ret (match found with Some date => date | None => [] end)).
Proof. reflexivity. Qed.

Lemma anchor_window_total (t : table) (i : nat) :
  (i < List.length t)%nat -> exists r, anchor_window t i = inr r.
Proof.
  intros Hi. destruct (getitem_lt t i Hi) as (row & G & _).
  unfold anchor_window. rewrite G. simpl.
  destruct (has_anchor _); [|now exists None].
  apply for_return_total. intros j Hj. apply in_range in Hj.
  apply date_cells_at_total. lia.
Qed.

Lemma anchor_window_some (t : table) (i : nat) (date : str) :
  anchor_window t i = inr (Some date) <->
  anchor_row t i /\
  exists j, (i <= j < i + 4)%nat /\ (j < 12)%nat /\ date_row t j date /\
            forall j' d', (i <= j' < j)%nat -> ~ date_row t j' d'.
Proof.
  unfold anchor_window, anchor_row, getitem. split.
  - destruct (nth_error t i) as [row|] eqn:E; simpl; [|discriminate].
    destruct (has_anchor _) eqn:A; [|discriminate].
    intros H. apply for_return_range_some in H as (j & Hj & Hd & Hpre).
    split; [now exists row|].
    exists j. repeat split; try lia.
    + now apply date_cells_at_some.
    + intros j' d' Hj' D. apply date_cells_at_some in D.
      rewrite (Hpre j' Hj') in D. discriminate.
  - intros [(row & E & A) (j & Hj & Hj12 & D & Hmin)].
    rewrite E. simpl. rewrite A.
    assert (Hjt : (j < List.length t)%nat).
    { destruct D as (c0 & c1 & c2 & rest & N & _).
      apply nth_error_Some. congruence. }
    apply for_return_range_some. exists j. repeat split; try lia.
    + now apply date_cells_at_some.
    + intros y Hy. apply date_cells_at_none; [lia|].
      intros d' D'. now apply (Hmin y d').
Qed.

Lemma anchor_window_none (t : table) (i : nat) :
  (i < List.length t)%nat ->
  anchor_window t i = inr None <->
  (anchor_row t i ->
   forall j d, (i <= j < i + 4)%nat -> (j < 12)%nat -> ~ date_row t j d).
Proof.
  intros Hi. destruct (getitem_lt t i Hi) as (row & G & N).
  unfold anchor_window, anchor_row. rewrite G. simpl. split.
  - intros H (row' & N' & A) j d Hj Hj12 D.
    assert (row' = row) by congruence. subst row'. rewrite A in H.
    assert (Hjt : (j < List.length t)%nat).
    { destruct D as (c0 & c1 & c2 & rest & Nj & _).
      apply nth_error_Some. congruence. }
    rewrite for_return_range_none in H.
    apply date_cells_at_some in D. rewrite H in D; [discriminate | lia].
  - intros H. destruct (has_anchor _) eqn:A; [|reflexivity].
    apply for_return_range_none. intros j Hj.
    apply date_cells_at_none; [lia|]. intros d.
    apply H; [now exists row | lia | lia].
Qed.

End DateExtractor.

Section DateClaim.
Context {U : UnicodeDB}.

Lemma getitem_firstn {A} (n : nat) (l : list A) (i : nat) :
  (i < n)%nat -> getitem (firstn n l) i = getitem l i.
Proof.
  intros H. unfold getitem. rewrite nth_error_firstn.
  apply Nat.ltb_lt in H. now rewrite H.
Qed.

Lemma date_cells_at_firstn (t : table) (j : nat) :
  (j < 12)%nat -> date_cells_at (firstn 12 t) j = date_cells_at t j.
Proof. intros H. unfold date_cells_at. now rewrite getitem_firstn. Qed.

(** Only the first 12 rows of the table are read. *)
Lemma extract_initial_date_firstn (t : table) :
  extract_initial_date (firstn 12 t) = extract_initial_date t.
Proof.
  unfold extract_initial_date. rewrite length_firstn.
  replace (Nat.min (Nat.min 12 (List.length t)) 12)
    with (Nat.min (List.length t) 12) by lia.
  f_equal. apply for_return_ext. intros i Hi. apply in_range in Hi.
  rewrite getitem_firstn by lia.
  destruct (getitem t i) as [e|row]; simpl; [reflexivity|].
  destruct (has_anchor _); [|reflexivity].
  apply for_return_ext. intros j Hj. apply in_range in Hj.
  apply date_cells_at_firstn. lia.
Qed.

Lemma anchor_row_lt (t : table) (i : nat) :
  anchor_row t i -> (i < List.length t)%nat.
Proof. intros (row & N & _). apply nth_error_Some. congruence. Qed.

(** C7: the date extractor returns, and reads the first 12 rows only.  A
    date it returns is the date written by a row with three cells at least
    (all digits, a month of the list, all digits), at most 3 rows below a
    row that holds "BALANCE FORWARD" or "LENDING @", both among the first 12
    rows: the first such pair in the order of the scan.  It returns the
    empty string exactly when the table has no such pair. *)
Theorem C7_initial_date (t : table) :
  exists date,
    extract_initial_date t = inr date /\
    extract_initial_date (firstn 12 t) = inr date /\
    (date <> [] ->
     exists i j,
       date_candidate t i j date /\
       forall i' j' d', date_candidate t i' j' d' ->
                        (i < i')%nat \/ (i = i' /\ (j <= j')%nat)) /\
    (date = [] <-> forall i j d, ~ date_candidate t i j d).
Proof.
  rewrite extract_initial_date_firstn, extract_initial_date_eq.
  destruct (for_return_total (range 0 (Nat.min (List.length t) 12))
              (anchor_window t)) as [found Hf].
  { intros i Hi. apply in_range in Hi. apply anchor_window_total. lia. }
  rewrite Hf. simpl. destruct found as [date|].
  - exists date. split; [reflexivity|]. split; [reflexivity|].
    apply for_return_range_some in Hf as (i & Hi & Hw & Hpre).
    apply anchor_window_some in Hw as (Ha & j & Hj & Hj12 & Hd & Hmin).
    assert (Hcand : date_candidate t i j date).
    { unfold date_candidate. repeat split; try lia; assumption. }
    split.
    + intros _. exists i, j. split; [exact Hcand|].
      intros i' j' d' (Hi' & Ha' & Hj' & Hj12' & Hd').
      destruct (Nat.lt_trichotomy i i') as [L|[E|G]]; [now left| |].
      * subst i'. right. split; [reflexivity|].
        destruct (Nat.le_gt_cases j j') as [L|G]; [assumption|].
        exfalso. apply (Hmin j' d'); [lia | assumption].
      * exfalso.
        assert (Hn : anchor_window t i' = inr None) by (apply Hpre; lia).
        apply (proj1 (anchor_window_none t i' (anchor_row_lt t i' Ha')) Hn
                 Ha' j' d'); [lia | assumption | assumption].
    + split.
      * intros E. exfalso. now apply (date_row_truthy t j date).
      * intros H. exfalso. now apply (H i j date).
  - exists []. split; [reflexivity|]. split; [reflexivity|].
    split; [intros C; now contradiction C|].
    split; [|reflexivity]. intros _ i j d (Hi & Ha & Hj & Hj12 & Hd).
    pose proof (anchor_row_lt t i Ha) as Hlt.
    rewrite for_return_range_none in Hf.
    assert (Hn : anchor_window t i = inr None) by (apply Hf; lia).
    apply (proj1 (anchor_window_none t i Hlt) Hn Ha j d); assumption.
Qed.

End DateClaim.

(** Witness of C7: the anchor row "BALANCE FORWARD" and, three rows below,
    the row of the 2 Feb 2024. *)
Lemma C7_initial_date_witness :
  let t := [ [lit ""; lit "BALANCE FORWARD"; lit ""; lit ""; lit ""; lit "1,500.00"];
             [lit ""]; [lit ""];
             [lit "2"; lit "Feb"; lit "2024"; lit "Grocery Store"; lit "";
              lit "45.30"; lit ""; lit "1454.70"] ] in
  extract_initial_date t = inr (lit "2 Feb 2024") /\
  exists i j, date_candidate t i j (lit "2 Feb 2024").
Proof.
  intros t. destruct (C7_initial_date t) as (date & Hd & _ & Hsome & _).
  assert (E : extract_initial_date t = inr (lit "2 Feb 2024"))
    by (vm_compute; reflexivity).
  split; [exact E|].
  assert (D : date = lit "2 Feb 2024") by congruence.
  rewrite D in Hsome.
  destruct Hsome as (i & j & Hc & _); [discriminate|].
  now exists i, j.
Defined.

(** ** The page assembler *)

Section PageAssembler.
Context {U : UnicodeDB}.

Lemma skip_blank_rows_spec (t : table) (fuel idx : nat) :
  (List.length t <= fuel + idx)%nat ->
  exists r,
    skip_blank_rows fuel t idx = inr r /\
    (idx <= r <= Nat.max idx (List.length t))%nat /\
    (forall k, (idx <= k < r)%nat ->
               exists row, nth_error t k = Some row /\ any_cell row = false) /\
    ((r < List.length t)%nat ->
     exists row, nth_error t r = Some row /\ any_cell row = true).
Proof.
  revert idx. induction fuel as [|fuel IH]; intros idx Hf.
  - exists idx. simpl. destruct (idx <? List.length t)%nat eqn:L.
    + apply Nat.ltb_lt in L. lia.
    + apply Nat.ltb_ge in L. split; [reflexivity|]. split; [lia|].
      split; intros; lia.
  - simpl. destruct (idx <? List.length t)%nat eqn:L.
    + apply Nat.ltb_lt in L.
      destruct (getitem_lt t idx L) as (row & G & N). rewrite G. simpl.
      destruct (any_cell row) eqn:A; simpl.
      * exists idx. split; [reflexivity|]. split; [lia|].
        split; [intros; lia|]. intros _. now exists row.
      * destruct (IH (S idx)) as (r & Hr & Hb & Hblank & Hstop); [lia|].
        exists r. split; [assumption|]. split; [lia|].
        split; [|assumption].
        intros k Hk. destruct (Nat.eq_dec k idx) as [->|Hne].
        -- now exists row.
        -- apply Hblank. lia.
    + apply Nat.ltb_ge in L. exists idx. split; [reflexivity|]. split; [lia|].
      split; intros; lia.
Qed.

Lemma start_index_loop_spec (t rows : table) (i : nat) :
  (i + List.length rows <= List.length t)%nat ->
  exists r, start_index_loop rows i t = inr r /\ (r <= List.length t + 2)%nat.
Proof.
  revert i. induction rows as [|row rows IH]; intros i Hi; simpl.
  - exists 0%nat. split; [reflexivity | lia].
  - simpl in Hi. destruct (has_anchor _).
    + destruct (skip_blank_rows_spec t (List.length t) (i + 3))
        as (r & Hr & Hb & _); [lia|].
      exists r. split; [assumption | lia].
    + apply IH. lia.
Qed.

Lemma find_transaction_start_index_spec (t : table) :
  exists idx,
    find_transaction_start_index t = inr idx /\
    (idx <= List.length t + 2)%nat.
Proof.
  unfold find_transaction_start_index. apply start_index_loop_spec.
  rewrite length_firstn. lia.
Qed.

Lemma extract_initial_date_total (t : table) :
  exists date, extract_initial_date t = inr date.
Proof.
  rewrite extract_initial_date_eq.
  destruct (for_return_total (range 0 (Nat.min (List.length t) 12))
              (anchor_window t)) as [found Hf].
  { intros i Hi. apply in_range in Hi. apply anchor_window_total. lia. }
  rewrite Hf. simpl. eauto.
Qed.

Lemma row_result_date (idx : nat) (inherited_date : str) (row : list str)
    (money : float * float * float) (coords : option coordinates)
    (found : option (str * str)) (tx : transaction) :
  row_result idx inherited_date row money coords found = Some tx ->
  tx_date tx = match found with Some (d, _) => d | None => inherited_date end.
Proof.
  unfold row_result. destruct money as [[debit credit] balance].
  destruct found as [[date details]|];
    match goal with |- context [negb ?b] => destruct (negb b) end;
    try discriminate; intros H; inversion H; reflexivity.
Qed.

(** A row with a date, its own or the inherited one, gives a transaction. *)
Lemma row_result_dated (idx : nat) (inherited_date : str) (row : list str)
    (money : float * float * float) (coords : option coordinates)
    (found : option (str * str)) :
  truthy (match found with Some (d, _) => d | None => inherited_date end) = true ->
  exists tx, row_result idx inherited_date row money coords found = Some tx.
Proof.
  unfold row_result. destruct money as [[debit credit] balance].
  destruct found as [[date details]|]; intros ->; simpl; eauto.
Qed.

Lemma truthy_nonempty (s : str) : truthy s = true <-> s <> [].
Proof. destruct s; simpl; split; congruence. Qed.

Lemma parse_transaction_row_date (row : list str) (idx : nat)
    (words : list word) (inherited_date : str) (tx : transaction) :
  parse_transaction_row row idx words inherited_date = inr (Some tx) ->
  inherited_date <> [] -> tx_date tx <> [].
Proof.
  destruct (scan_amount_total row words) as (money & coords & Ha & _).
  destruct (scan_date_total row) as [found Hd].
  rewrite (parse_transaction_row_eq row idx words inherited_date _ _ _ Ha Hd).
  intros H Hne. inversion H as [H1]. apply row_result_date in H1. rewrite H1.
  destruct found as [[d details]|]; [|assumption].
  apply truthy_nonempty. exact (scan_date_some_truthy _ _ _ Hd).
Qed.

(** The carry rule: what the loop does with the transaction of a row. *)
Lemma page_rows_loop_step (raw_row : list str) (rest : table) (idx : nat)
    (words : list word) (current_date : str) (txs : list transaction)
    (tx : transaction) :
  existsb (fun cell => truthy (strip cell)) raw_row = true ->
  parse_transaction_row (map strip raw_row) idx words current_date = inr (Some tx) ->
  page_rows_loop (raw_row :: rest) idx words current_date txs =
  if truthy (tx_date tx) && negb (str_eqb (tx_date tx) current_date)
  then page_rows_loop rest (S idx) words (tx_date tx) (txs ++ [tx])
  else page_rows_loop rest (S idx) words current_date
         (txs ++ [set_date tx current_date]).
Proof. intros Hb Hp. simpl. rewrite Hb, Hp. reflexivity. Qed.

Lemma page_rows_loop_dates (rows : table) (idx : nat) (words : list word)
    (current_date : str) (txs : list transaction) :
  current_date <> [] ->
  Forall (fun tx => tx_date tx <> []) txs ->
  exists out,
    page_rows_loop rows idx words current_date txs = inr out /\
    Forall (fun tx => tx_date tx <> []) out.
Proof.
  revert idx current_date txs.
  induction rows as [|raw_row rows IH]; intros idx cur txs Hc Ht; simpl.
  - now exists txs.
  - destruct (existsb _ raw_row); simpl; [|now apply IH].
    destruct (parse_transaction_row_total (map strip raw_row) idx words cur)
      as [parsed Hp].
    rewrite Hp. simpl. destruct parsed as [tx|]; [|now apply IH].
    pose proof (parse_transaction_row_date _ _ _ _ _ Hp Hc) as Hd.
    destruct (truthy (tx_date tx) && negb (str_eqb (tx_date tx) cur)).
    + apply IH; [assumption|]. apply Forall_app. split; [assumption|].
      constructor; [assumption | constructor].
    + apply IH; [assumption|]. apply Forall_app. split; [assumption|].
      constructor; [exact Hc | constructor].
Qed.

Lemma page_rows_loop_total (rows : table) (idx : nat) (words : list word)
    (current_date : str) (txs : list transaction) :
  exists out, page_rows_loop rows idx words current_date txs = inr out.
Proof.
  revert idx current_date txs.
  induction rows as [|raw_row rows IH]; intros idx cur txs; simpl.
  - now exists txs.
  - destruct (existsb _ raw_row); simpl; [|now apply IH].
    destruct (parse_transaction_row_total (map strip raw_row) idx words cur)
      as [parsed Hp].
    rewrite Hp. simpl. destruct parsed as [tx|]; [|now apply IH].
    destruct (truthy (tx_date tx) && negb (str_eqb (tx_date tx) cur));
      apply IH.
Qed.

(** A row with a date of its own, then a row without one: both
    transactions carry the date of the first row, which is the carried date
    afterwards. *)
Lemma page_rows_loop_forward (r1 r2 : list str) (rest : table) (idx : nat)
    (words : list word) (current_date : str) (txs : list transaction)
    (date details : str) :
  existsb (fun cell => truthy (strip cell)) r1 = true ->
  existsb (fun cell => truthy (strip cell)) r2 = true ->
  scan_date (map strip r1) = inr (Some (date, details)) ->
  scan_date (map strip r2) = inr None ->
  exists tx1 tx2,
    page_rows_loop (r1 :: r2 :: rest) idx words current_date txs =
    page_rows_loop rest (S (S idx)) words date (txs ++ [tx1; tx2]) /\
    tx_date tx1 = date /\ tx_date tx2 = date.
Proof.
  intros B1 B2 D1 D2.
  pose proof (scan_date_some_truthy _ _ _ D1) as Td.
  destruct (scan_amount_total (map strip r1) words) as (m1 & c1 & A1 & _).
  destruct (scan_amount_total (map strip r2) words) as (m2 & c2 & A2 & _).
  destruct (row_result_dated idx current_date (map strip r1) m1 c1
              (Some (date, details)) Td) as [tx1 R1].
  destruct (row_result_dated (S idx) date (map strip r2) m2 c2 None Td)
    as [tx2 R2].
  pose proof (row_result_date _ _ _ _ _ _ _ R1) as E1. simpl in E1.
  pose proof (row_result_date _ _ _ _ _ _ _ R2) as E2. simpl in E2.
  assert (P1 : parse_transaction_row (map strip r1) idx words current_date
               = inr (Some tx1)).
  { rewrite (parse_transaction_row_eq _ idx words current_date _ _ _ A1 D1).
    now rewrite R1. }
  assert (P2 : parse_transaction_row (map strip r2) (S idx) words date
               = inr (Some tx2)).
  { rewrite (parse_transaction_row_eq _ (S idx) words date _ _ _ A2 D2).
    now rewrite R2. }
  assert (Step2 : forall acc,
             page_rows_loop (r2 :: rest) (S idx) words date acc =
             page_rows_loop rest (S (S idx)) words date
               (acc ++ [set_date tx2 date])).
  { intros acc. rewrite (page_rows_loop_step r2 rest (S idx) words date acc tx2 B2 P2).
    rewrite E2, str_eqb_refl, andb_false_r. reflexivity. }
  rewrite (page_rows_loop_step r1 (r2 :: rest) idx words current_date txs tx1 B1 P1).
  rewrite E1, Td. simpl andb.
  destruct (str_eqb date current_date) eqn:Q; simpl negb; cbv iota.
  - apply str_eqb_eq in Q. subst current_date.
    exists (set_date tx1 date), (set_date tx2 date).
    rewrite Step2, <- app_assoc. simpl. auto.
  - exists tx1, (set_date tx2 date).
    rewrite Step2, <- app_assoc. simpl. auto.
Qed.

Lemma row_result_row (idx : nat) (inherited_date : str) (row : list str)
    (money : float * float * float) (coords : option coordinates)
    (found : option (str * str)) (tx : transaction) :
  row_result idx inherited_date row money coords found = Some tx ->
  tx_row tx = idx.
Proof.
  unfold row_result. destruct money as [[debit credit] balance].
  destruct found as [[date details]|];
    match goal with |- context [negb ?b] => destruct (negb b) end;
    try discriminate; intros H; inversion H; reflexivity.
Qed.

(** With a carried date that is not empty, every row that is not blank
    gives a transaction, whose date is the one [carried_dates] tells. *)
Lemma page_rows_loop_carried (rows : table) (idx : nat) (words : list word)
    (current_date : str) (txs : list transaction) :
  current_date <> [] ->
  exists out,
    page_rows_loop rows idx words current_date txs = inr out /\
    map (fun tx => (tx_row tx, tx_date tx)) out =
    map (fun tx => (tx_row tx, tx_date tx)) txs
    ++ carried_dates rows idx current_date.
Proof.
  revert idx current_date txs.
  induction rows as [|raw_row rows IH]; intros idx cur txs Hc.
  - exists txs. simpl. now rewrite app_nil_r.
  - cbn [page_rows_loop carried_dates]. unfold nonblank at 1.
    destruct (existsb (fun cell => truthy (strip cell)) raw_row) eqn:B;
      cbn [negb]; [|now apply IH].
    destruct (scan_amount_total (map strip raw_row) words)
      as (money & coords & Ha & _).
    destruct (scan_date_total (map strip raw_row)) as [found Hd].
    rewrite (parse_transaction_row_eq _ idx words cur _ _ _ Ha Hd).
    set (date := match found with Some (d, _) => d | None => cur end).
    assert (Td : truthy date = true).
    { subst date. destruct found as [[d details]|].
      - exact (scan_date_some_truthy _ _ _ Hd).
      - now apply truthy_nonempty. }
    destruct (row_result_dated idx cur (map strip raw_row) money coords found Td)
      as [tx R].
    rewrite R. cbn [bind].
    pose proof (row_result_date _ _ _ _ _ _ _ R) as Edate. fold date in Edate.
    pose proof (row_result_row _ _ _ _ _ _ _ R) as Erow.
    assert (Own : match own_date raw_row with Some d => d | None => cur end
                  = date).
    { unfold own_date. rewrite Hd. subst date.
      destruct found as [[d details]|]; reflexivity. }
    rewrite Own. rewrite Edate, Td. cbn [andb].
    assert (Hdne : date <> []) by now apply truthy_nonempty.
    destruct (str_eqb date cur) eqn:Q; cbn [negb].
    + apply str_eqb_eq in Q.
      destruct (IH (S idx) cur (txs ++ [set_date tx cur]) Hc) as (out & Ho & Hm).
      exists out. split; [assumption|].
      rewrite Hm, map_app, <- app_assoc. simpl. rewrite Erow, Q. reflexivity.
    + destruct (IH (S idx) date (txs ++ [tx]) Hdne) as (out & Ho & Hm).
      exists out. split; [assumption|].
      rewrite Hm, map_app, <- app_assoc. simpl. rewrite Erow, Edate.
      reflexivity.
Qed.

(** The dates carried over a list of rows are those carried over its
    first part, then those carried over the rest from some carried date. *)
Lemma carried_dates_app (pre rows : table) (idx : nat) (current_date : str) :
  exists cur',
    carried_dates (pre ++ rows) idx current_date =
    carried_dates pre idx current_date
    ++ carried_dates rows (idx + List.length pre) cur'.
Proof.
  revert idx current_date.
  induction pre as [|raw_row pre IH]; intros idx cur.
  - exists cur. simpl. now rewrite Nat.add_0_r.
  - cbn [app carried_dates List.length].
    replace (idx + S (List.length pre))%nat with (S idx + List.length pre)%nat
      by lia.
    destruct (nonblank raw_row).
    + destruct (IH (S idx)
                  (match own_date raw_row with Some d => d | None => cur end))
        as [cur' E].
      exists cur'. rewrite E. reflexivity.
    + apply IH.
Qed.

(** Two rows of the table that follow each other, from the index [start]
    on, within the rows read from [start]. *)
Lemma skipn_two_rows (t : table) (start k : nat) (r1 r2 : list str) :
  (start <= k)%nat ->
  nth_error t k = Some r1 -> nth_error t (S k) = Some r2 ->
  exists pre rest,
    skipn start t = pre ++ r1 :: r2 :: rest /\
    (start + List.length pre = k)%nat.
Proof.
  intros Hle H1 H2.
  apply nth_error_split in H1 as (l1 & l2 & -> & Hl).
  rewrite nth_error_app2 in H2 by lia.
  replace (S k - List.length l1)%nat with 1%nat in H2 by lia.
  destruct l2 as [|r l2]; [discriminate|]. simpl in H2. inversion H2; subst r.
  exists (skipn start l1), l2. split.
  - rewrite skipn_app.
    replace (start - List.length l1)%nat with 0%nat by lia. reflexivity.
  - rewrite length_skipn. lia.
Qed.

End PageAssembler.

Section PageClaims.
Context {U : UnicodeDB}.

Lemma initial_date_of_cases (t : table) (pg : page) :
  (exists init, initial_date_of t pg = inr init) \/
  (exists msg, get_text pg = inl msg /\
               initial_date_of t pg = inl (ExternalError msg) /\
               extract_initial_date t = inr []).
Proof.
  unfold initial_date_of.
  destruct (extract_initial_date_total t) as [date Hd]. rewrite Hd. simpl.
  destruct date as [|c date]; simpl.
  - destruct (get_text pg) as [msg|raw]; simpl.
    + right. now exists msg.
    + left. eauto.
  - left. eauto.
Qed.

Lemma clean_page_transactions_from (t : table) (page_num : nat) (pg : page)
    (words : list word) (init : str) :
  initial_date_of t pg = inr init ->
  exists idx,
    find_transaction_start_index t = inr idx /\
    clean_page_transactions t page_num pg words =
    page_rows_loop (skipn idx t) idx words init [].
Proof.
  intros Hi. destruct (find_transaction_start_index_spec t) as (idx & Hs & _).
  exists idx. split; [assumption|].
  unfold clean_page_transactions. rewrite Hi. simpl. now rewrite Hs.
Qed.

(** C2: when the initial date of a page is not empty, page assembly
    returns; every transaction has a date that is not empty; there is one
    transaction for each row that is not blank from the first transaction
    row on, and its date is the date the row writes or, when it writes
    none, the date carried so far: the date of the nearest row before it
    that writes one, or the initial date.  So a date only moves forward: a
    row without a date of its own that follows a row with one takes the
    date of that row.  On the two rows ("1", "Jan", "2024", "Shop",
    "50.00") and ("Coffee", "3.00"), on every page, both transactions have
    the date "1 Jan 2024". *)
Theorem C2_dates_carried_forward :
  (forall t page_num pg words init,
     initial_date_of t pg = inr init -> init <> [] ->
     exists start_idx txs,
       find_transaction_start_index t = inr start_idx /\
       clean_page_transactions t page_num pg words = inr txs /\
       Forall (fun tx => tx_date tx <> []) txs /\
       map (fun tx => (tx_row tx, tx_date tx)) txs =
         carried_dates (skipn start_idx t) start_idx init /\
       (forall k r1 r2 date,
          (start_idx <= k)%nat ->
          nth_error t k = Some r1 -> nth_error t (S k) = Some r2 ->
          nonblank r1 = true -> nonblank r2 = true ->
          own_date r1 = Some date -> own_date r2 = None ->
          exists l1 tx1 tx2 l2,
            txs = l1 ++ tx1 :: tx2 :: l2 /\
            tx_row tx1 = k /\ tx_row tx2 = S k /\
            tx_date tx1 = date /\ tx_date tx2 = date)) /\
  (forall page_num pg words init,
     let t := [ [lit "1"; lit "Jan"; lit "2024"; lit "Shop"; lit "50.00"];
                [lit "Coffee"; lit "3.00"] ] in
     initial_date_of t pg = inr init ->
     exists tx1 tx2,
       clean_page_transactions t page_num pg words = inr [tx1; tx2] /\
       tx_date tx1 = lit "1 Jan 2024" /\ tx_date tx2 = lit "1 Jan 2024").
Proof.
  split.
  - intros t page_num pg words init Hi Hne.
    destruct (clean_page_transactions_from t page_num pg words init Hi)
      as (idx & Hs & E).
    destruct (page_rows_loop_carried (skipn idx t) idx words init [] Hne)
      as (txs & Ho & Hm).
    destruct (page_rows_loop_dates (skipn idx t) idx words init [] Hne
                (Forall_nil _)) as (txs' & Ho' & Hd).
    assert (txs' = txs) by congruence. subst txs'.
    exists idx, txs. split; [assumption|]. split; [now rewrite E|].
    split; [assumption|]. split; [exact Hm|].
    intros k r1 r2 date Hk H1 H2 B1 B2 D1 D2.
    destruct (skipn_two_rows t idx k r1 r2 Hk H1 H2) as (pre & rest & Et & El).
    destruct (carried_dates_app pre (r1 :: r2 :: rest) idx init) as [cur' Ec].
    rewrite Et, Ec, El in Hm. cbn [carried_dates app] in Hm.
    rewrite B1, B2, D1, D2 in Hm.
    apply (@map_eq_app _ _ (fun tx => (tx_row tx, tx_date tx)) txs
             (carried_dates pre idx init)
             ((k, date) :: (S k, date) :: carried_dates rest (S (S k)) date))
      in Hm as (l1 & l' & -> & _ & Hm).
    destruct l' as [|tx1 [|tx2 l2]]; cbn [map] in Hm; try discriminate Hm.
    inversion Hm.
    exists l1, tx1, tx2, l2. repeat split; congruence.
  - intros page_num pg words init t Hi.
    destruct (clean_page_transactions_from t page_num pg words init Hi)
      as (idx & Hs & E).
    assert (Hs0 : find_transaction_start_index t = inr 0%nat)
      by (vm_compute; reflexivity).
    assert (idx = 0%nat) by congruence. subst idx.
    assert (B1 : existsb (fun cell => truthy (strip cell))
                   [lit "1"; lit "Jan"; lit "2024"; lit "Shop"; lit "50.00"]
                 = true) by (vm_compute; reflexivity).
    assert (B2 : existsb (fun cell => truthy (strip cell))
                   [lit "Coffee"; lit "3.00"] = true)
      by (vm_compute; reflexivity).
    assert (S1 : scan_date
                   (map strip
                      [lit "1"; lit "Jan"; lit "2024"; lit "Shop"; lit "50.00"])
                 = inr (Some (lit "1 Jan 2024", lit "Shop")))
      by (vm_compute; reflexivity).
    assert (S2 : scan_date (map strip [lit "Coffee"; lit "3.00"]) = inr None)
      by (vm_compute; reflexivity).
    destruct (page_rows_loop_forward _ _ [] 0%nat words init [] _ _
                B1 B2 S1 S2)
      as (tx1 & tx2 & E2 & D1 & D2).
    exists tx1, tx2. rewrite E. cbn [skipn]. subst t. rewrite E2.
    split; [reflexivity|]. split; assumption.
Qed.

(** C10: on every table the date extractor, the search of the first
    transaction row, the row parser and the page assembler return without an
    error of their own (the only failure of page assembly is the failure of
    the page to give its text, when the table has no date).  The index of
    the first transaction row is at most [len(table) + 2]; from
    [len(table)] on, [table[start_idx:]] is empty and no row is read. *)
Theorem C10_page_assembly_total (t : table) :
  (exists date, extract_initial_date t = inr date) /\
  (exists idx,
     find_transaction_start_index t = inr idx /\
     (idx <= List.length t + 2)%nat /\
     ((List.length t <= idx)%nat -> skipn idx t = [])) /\
  (forall row idx words inherited_date,
     exists parsed, parse_transaction_row row idx words inherited_date = inr parsed) /\
  (forall page_num pg words raw,
     get_text pg = inr raw ->
     exists txs, clean_page_transactions t page_num pg words = inr txs) /\
  (forall page_num pg words msg,
     get_text pg = inl msg ->
     (exists txs, clean_page_transactions t page_num pg words = inr txs) \/
     (clean_page_transactions t page_num pg words = inl (ExternalError msg) /\
      extract_initial_date t = inr [])) /\
  (forall page_num pg words init idx,
     initial_date_of t pg = inr init ->
     find_transaction_start_index t = inr idx ->
     (List.length t <= idx)%nat ->
     clean_page_transactions t page_num pg words = inr []).
Proof.
  split; [apply extract_initial_date_total|].
  split.
  { destruct (find_transaction_start_index_spec t) as (idx & Hs & Hb).
    exists idx. split; [assumption|]. split; [assumption|].
    intros Hl. now apply skipn_all2. }
  split; [intros; apply parse_transaction_row_total|].
  assert (Hfrom : forall page_num pg words init,
             initial_date_of t pg = inr init ->
             exists txs, clean_page_transactions t page_num pg words = inr txs).
  { intros page_num pg words init Hi.
    destruct (clean_page_transactions_from t page_num pg words init Hi)
      as (idx & _ & ->).
    apply page_rows_loop_total. }
  split; [|split].
  - intros page_num pg words raw Hraw.
    destruct (initial_date_of_cases t pg) as [[init Hi]|(msg & Hm & _)].
    + now apply (Hfrom page_num pg words init).
    + congruence.
  - intros page_num pg words msg Hmsg.
    destruct (initial_date_of_cases t pg) as [[init Hi]|(msg' & Hm & Hi & He)].
    + left. now apply (Hfrom page_num pg words init).
    + right. assert (msg' = msg) by congruence. subst msg'.
      split; [|assumption].
      unfold clean_page_transactions. now rewrite Hi.
  - intros page_num pg words init idx Hi Hs Hl.
    destruct (clean_page_transactions_from t page_num pg words init Hi)
      as (idx' & Hs' & ->).
    assert (idx' = idx) by congruence. subst idx'.
    now rewrite skipn_all2.
Qed.

End PageClaims.

(** Witness of C2: a page whose text gives the date "31 Dec 2023" and whose
    table has the two rows of the example: both transactions carry the
    date of the first row. *)
Lemma C2_dates_carried_forward_witness :
  let t := [ [lit "1"; lit "Jan"; lit "2024"; lit "Shop"; lit "50.00"];
             [lit "Coffee"; lit "3.00"] ] in
  let pg := mkPage (inr (lit "Statement of 31 Dec 2023")) (inr []) (inr []) in
  exists txs,
    clean_page_transactions t 1 pg [] = inr txs /\
    map (fun tx => (tx_row tx, tx_date tx)) txs =
    [(0%nat, lit "1 Jan 2024"); (1%nat, lit "1 Jan 2024")].
Proof.
  intros t pg.
  assert (Hi : initial_date_of t pg = inr (lit "31 Dec 2023"))
    by (vm_compute; reflexivity).
  assert (Hne : lit "31 Dec 2023" <> []) by discriminate.
  destruct (proj1 C2_dates_carried_forward t 1%nat pg [] (lit "31 Dec 2023")
              Hi Hne) as (idx & txs & Hs & Hc & _ & Hm & _).
  assert (Hs0 : find_transaction_start_index t = inr 0%nat)
    by (vm_compute; reflexivity).
  assert (idx = 0%nat) by congruence. subst idx.
  exists txs. split; [exact Hc|]. rewrite Hm. vm_compute. reflexivity.
Defined.

(** Witness of C10: a table that is its anchor row alone; the page gives an
    empty text and page assembly returns no transaction. *)
Lemma C10_page_assembly_total_witness :
  let t := [[lit "BALANCE FORWARD"]] in
  let pg := mkPage (inr []) (inr []) (inr []) in
  clean_page_transactions t 1 pg [] = inr [].
Proof.
  intros t pg.
  destruct (C10_page_assembly_total t) as (_ & _ & _ & _ & _ & Hempty).
  apply (Hempty 1%nat pg [] [] 3%nat).
  - vm_compute. reflexivity.
  - vm_compute. reflexivity.
  - simpl. lia.
Defined.

(** Counterexample to C10 as stated: on the table that is its anchor row
    alone, the index of the first transaction row is 3, above the length 1
    of the table. *)
Lemma C10_start_index_above_length :
  find_transaction_start_index [[lit "BALANCE FORWARD"]] = inr 3%nat /\
  (List.length [[lit "BALANCE FORWARD"]] < 3)%nat.
Proof. split; [vm_compute; reflexivity | simpl; lia]. Qed.

(** ** The amount parser *)


Lemma float_neg_positive (v : float) :
  float_ltb float_zero v = true -> float_ltb (float_neg v) float_zero = true.
Proof.
  unfold float_ltb, SFltb, float_zero, float_neg.
  destruct v as [s|s| |s m e]; simpl; try discriminate;
    destruct s; simpl; try discriminate; reflexivity.
Qed.

Section AmountParser.
Context {U : UnicodeDB}.

Lemma py_float_cases (s : str) :
  py_float s = inl ValueError \/ exists v, py_float s = inr v.
Proof.
  unfold py_float. destruct (drop_underscores _ _) as [t|]; [|now left].
  destruct (parse_signed t) as [v|]; [right; now exists v | now left].
Qed.

Lemma amount_value_eq (is_balance overdrawn : bool) (s : str) :
  amount_value is_balance overdrawn s =
  inr (match py_float (if startswith [chr_minus] s then tl s else s) with
       | inr v =>
           if is_balance && overdrawn then float_neg v
           else if startswith [chr_minus] s then float_neg v
           else v
       | inl _ => float_zero
       end).
Proof.
  unfold amount_value. cbv zeta.
  destruct (startswith [chr_minus] s).
  - destruct (py_float_cases (tl s)) as [E|[v E]]; rewrite E; reflexivity.
  - destruct (py_float_cases s) as [E|[v E]]; rewrite E; reflexivity.
Qed.


Lemma contains_dr_strip (s : str) :
  contains (lit "dr") (strip s) = contains (lit "dr") s.
Proof.
  unfold strip, rstrip, lstrip. rewrite contains_rev.
  change (rev (lit "dr")) with [114%N; 100%N].
  rewrite contains_dropwhile by reflexivity.
  rewrite contains_rev. change (rev [114%N; 100%N]) with [100%N; 114%N].
  rewrite contains_dropwhile by reflexivity. reflexivity.
Qed.

Lemma contains_dr_lower (s : str) :
  contains (lit "dr") s = true -> contains (lit "dr") (lower s) = true.
Proof.
  rewrite !contains_spec. intros (pre & post & ->).
  exists (lower pre), (lower post). unfold lower.
  rewrite !flat_map_app. reflexivity.
Qed.

Lemma contains_dr_replace (c : char) (s : str) :
  c <> 100%N -> c <> 114%N ->
  contains (lit "dr") s = true ->
  contains (lit "dr") (replace [c] [] s) = true.
Proof.
  intros Hd Hr H. rewrite replace_single. apply contains_filter; [|assumption].
  change (lit "dr") with [100%N; 114%N]. cbn [forallb].
  apply N.eqb_neq in Hd, Hr.
  rewrite (N.eqb_sym 100 c), (N.eqb_sym 114 c), Hd, Hr. reflexivity.
Qed.

(** The marker survives the cleaning of the text. *)
Lemma contains_dr_amount_text (text : str) :
  contains (lit "dr") text = true ->
  contains (lit "dr") (amount_text text) = true.
Proof.
  intros H. unfold amount_text.
  apply (contains_dr_replace 44%N); [discriminate | discriminate |].
  apply contains_dr_replace; [discriminate | discriminate |].
  apply contains_dr_replace; [discriminate | discriminate |].
  apply contains_dr_lower. now rewrite contains_dr_strip.
Qed.




Lemma parse_amount_field_started (text : str) (is_balance : bool) :
  truthy (strip text) = true ->
  parse_amount_field text is_balance =
  if contains (lit "dr") (amount_text text)
  then if is_balance
       then amount_value is_balance true
              (strip (replace (lit "dr") [] (amount_text text)))
       else ret float_zero
  else amount_value is_balance false (amount_text text).
Proof.
  intros H. unfold parse_amount_field. rewrite H.
  destruct text as [|c text]; [discriminate|]. reflexivity.
Qed.

(** C3: outside a balance, a text that contains the marker "dr", as it
    stands or once cleaned and put in lower case, gives 0.0.  In a balance, the marker is removed, one leading "-" is removed and the
    number read is negated once, with or without that "-", so that a
    positive number gives a negative result.  Without the marker, a leading
    "-" negates the number read after it. *)
Theorem C3_overdraft_marker_and_sign :
  (forall text,
     contains (lit "dr") text = true ->
     parse_amount_field text false = inr float_zero) /\
  (forall text,
     contains (lit "dr") (amount_text text) = true ->
     parse_amount_field text false = inr float_zero) /\
  (forall text,
     truthy (strip text) = true ->
     contains (lit "dr") (amount_text text) = true ->
     let s := strip (replace (lit "dr") [] (amount_text text)) in
     let number := if startswith [chr_minus] s then tl s else s in
     parse_amount_field text true =
     inr (match py_float number with
          | inr v => float_neg v
          | inl _ => float_zero
          end) /\
     (forall v, py_float number = inr v ->
                float_ltb float_zero v = true ->
                exists r, parse_amount_field text true = inr r /\
                          float_ltb r float_zero = true)) /\
  (forall text is_balance,
     truthy (strip text) = true ->
     contains (lit "dr") (amount_text text) = false ->
     startswith [chr_minus] (amount_text text) = true ->
     parse_amount_field text is_balance =
     inr (match py_float (tl (amount_text text)) with
          | inr v => float_neg v
          | inl _ => float_zero
          end)) /\
  parse_amount_field (lit "45.00 dr") true = inr (float_neg (float_of_Z 45)) /\
  parse_amount_field (lit "45.00 dr") false = inr float_zero /\
  parse_amount_field (lit "-45.00") false = inr (float_neg (float_of_Z 45)) /\
  parse_amount_field (lit "-45.00 dr") true = inr (float_neg (float_of_Z 45)).
Proof.
  assert (Hnon : forall text,
             contains (lit "dr") (amount_text text) = true ->
             parse_amount_field text false = inr float_zero).
  { intros text H.
    destruct (truthy (strip text)) eqn:T.
    - rewrite (parse_amount_field_started text false T). now rewrite H.
    - unfold parse_amount_field. rewrite T. simpl negb.
      now rewrite orb_true_r. }
  split; [|split; [|split; [|split]]].
  - intros text H. apply Hnon. now apply contains_dr_amount_text.
  - exact Hnon.
  - intros text T H s number.
    assert (E : parse_amount_field text true =
                inr (match py_float number with
                     | inr v => float_neg v
                     | inl _ => float_zero
                     end)).
    { rewrite (parse_amount_field_started text true T), H.
      rewrite amount_value_eq. fold s. fold number. reflexivity. }
    split; [exact E|].
    intros v Hv Hpos. rewrite E, Hv. eexists. split; [reflexivity|].
    now apply float_neg_positive.
  - intros text is_balance T H M.
    rewrite (parse_amount_field_started text is_balance T), H.
    rewrite amount_value_eq, M. rewrite andb_false_r. reflexivity.
  - repeat (apply conj; [vm_compute; reflexivity|]). vm_compute. reflexivity.
Qed.


End AmountParser.

(** Witness of C3: the overdrawn balance "-45.00 DR" is -45.0, negated
    once. *)
Lemma C3_overdraft_marker_and_sign_witness :
  parse_amount_field (lit "-45.00 DR") true = inr (float_neg (float_of_Z 45)) /\
  parse_amount_field (lit "-45.00 DR") false = inr float_zero.
Proof.
  destruct C3_overdraft_marker_and_sign as (_ & Hnon & Hbal & _).
  assert (T : truthy (strip (lit "-45.00 DR")) = true)
    by (vm_compute; reflexivity).
  assert (M : contains (lit "dr") (amount_text (lit "-45.00 DR")) = true)
    by (vm_compute; reflexivity).
  split.
  - destruct (Hbal (lit "-45.00 DR") T M) as [E _].
    rewrite E. vm_compute. reflexivity.
  - apply Hnon. exact M.
Defined.


(** ** The CSV export *)

Lemma dict_to_list_csv_row (debug : bool) (tx : transaction) :
  dict_to_list
    (["date"; "details"; "debit"; "credit"; "balance"]%string
     ++ (if debug then ["x_coord"; "y_coord"]%string else []))
    (csv_row debug tx) = inr (csv_cells debug tx).
Proof. destruct debug; reflexivity. Qed.

Lemma write_rows_eq (debug : bool) (transactions : list transaction)
    (written : list (list value)) :
  write_rows
    (["date"; "details"; "debit"; "credit"; "balance"]%string
     ++ (if debug then ["x_coord"; "y_coord"]%string else []))
    debug transactions written =
  inr (written ++ map (csv_cells debug) transactions).
Proof.
  revert written. induction transactions as [|tx rest IH]; intros written.
  - simpl. now rewrite app_nil_r.
  - cbn [write_rows]. rewrite dict_to_list_csv_row. cbn [bind].
    rewrite IH, <- app_assoc. reflexivity.
Qed.

Lemma export_to_csv_empty (csv_path : string) (debug : bool) (fs : filesystem) :
  export_to_csv [] csv_path debug fs = inr fs.
Proof. reflexivity. Qed.

Lemma or_empty_zero (s : bool) : or_empty (S754_zero s) = VStr [].
Proof. reflexivity. Qed.


(** What the export of a sequence that is not empty does: it writes the
    file when the path can be opened, and raises the error of [open]
    otherwise. *)
Lemma export_to_csv_written (tx : transaction) (rest : list transaction)
    (csv_path : string) (debug : bool) (fs : filesystem) :
  refused fs csv_path = None ->
  export_to_csv (tx :: rest) csv_path debug fs =
  inr (write_file fs csv_path
         (csv_header debug :: map (csv_cells debug) (tx :: rest))).
Proof.
  intros Hr. unfold export_to_csv, open_w. rewrite Hr. cbn [bind ret].
  assert (W := write_rows_eq debug (tx :: rest) [csv_header debug]).
  destruct debug; cbn [app] in W |- *; unfold csv_header in W; cbn [app] in W;
    rewrite W; reflexivity.
Qed.

Lemma export_to_csv_refused (tx : transaction) (rest : list transaction)
    (csv_path : string) (debug : bool) (fs : filesystem) (msg : string) :
  refused fs csv_path = Some msg ->
  export_to_csv (tx :: rest) csv_path debug fs = inl (OSError msg).
Proof. intros Hr. unfold export_to_csv, open_w. now rewrite Hr. Qed.



(** ** The document handle *)

Section Handle.
Context {U : UnicodeDB}.

(** After a run without exception the handle is closed. *)
Lemma read_pdf_and_extract_closes (pdf : external document) (h h' : handle)
    (txs : list transaction) :
  read_pdf_and_extract pdf h = (inr txs, h') -> h' = Closed.
Proof.
  unfold read_pdf_and_extract, io_bind, pymupdf_open, io_lift, doc_close, io_ret.
  destruct pdf as [msg|doc]; simpl; [discriminate|].
  destruct (pages_loop (doc_pages doc) 0 []) as [e|all_txs]; simpl;
    [discriminate|].
  intros H. now inversion H.
Qed.

(** An exception in the loop over the pages leaves the function before
    [doc.close()]: the handle stays open. *)
Lemma read_pdf_and_extract_leaks (doc : document) (h : handle) (e : exn) :
  pages_loop (doc_pages doc) 0 [] = inl e ->
  read_pdf_and_extract (inr doc) h = (inl e, Opened).
Proof.
  intros H.
  unfold read_pdf_and_extract, io_bind, pymupdf_open, io_lift. simpl.
  now rewrite H.
Qed.

End Handle.

(** C9: a document of two pages, the first without table, the second
    failing to give its words.  The exception leaves
    [read_pdf_and_extract] with the handle still open. *)
Theorem C9_handle_left_open_on_exception :
  read_pdf_and_extract
    (inr (mkDoc [ inr (mkPage (inr []) (inr []) (inr []));
                  inr (mkPage (inr []) (inl "cannot read page"%string) (inr [])) ]))
    NotOpened
  = (inl (ExternalError "cannot read page"), Opened).
Proof. vm_compute. reflexivity. Qed.

(* ================================================================== *)
(** * Further properties *)

(** ** The amounts of a row are never negative *)

Lemma iter_pos_inv {A} (P : A -> Prop) (f : A -> A) (p : positive) (x : A) :
  (forall y, P y -> P (f y)) -> P x -> P (iter_pos f p x).
Proof.
  intros Hf. revert x. induction p as [p IH|p IH|]; intros x Hx; simpl; auto.
Qed.

Lemma shr_1_nonneg (mrs : shr_record) :
  (0 <= shr_m mrs)%Z -> (0 <= shr_m (shr_1 mrs))%Z.
Proof.
  destruct mrs as [m r s]. simpl. destruct m as [|p|p]; simpl; try lia.
  destruct p; simpl; lia.
Qed.

Lemma shr_fexp_nonneg (m e : Z) (l : location) :
  (0 <= m)%Z -> (0 <= shr_m (fst (shr_fexp prec emax m e l)))%Z.
Proof.
  intros H. unfold shr_fexp, shr.
  assert (H0 : (0 <= shr_m (shr_record_of_loc m l))%Z).
  { destruct l as [|[]]; simpl; assumption. }
  destruct (fexp prec emax (Zdigits2 m + e) - e)%Z; simpl; try assumption.
  apply iter_pos_inv; [apply shr_1_nonneg | assumption].
Qed.

Lemma round_nearest_even_nonneg (m : Z) (l : location) :
  (0 <= m)%Z -> (0 <= round_nearest_even m l)%Z.
Proof.
  intros H. unfold round_nearest_even. destruct l as [|[]]; try assumption.
  - destruct (Z.even m); lia.
  - lia.
Qed.

Lemma binary_round_aux_nonneg (mx ex : Z) (lx : location) :
  (0 <= mx)%Z -> float_nonneg (binary_round_aux prec emax false mx ex lx).
Proof.
  intros H. unfold binary_round_aux.
  pose proof (shr_fexp_nonneg mx ex lx H) as H1.
  destruct (shr_fexp prec emax mx ex lx) as [mrs1 e1]. simpl in H1.
  pose proof (round_nearest_even_nonneg _ (loc_of_shr_record mrs1) H1) as H2.
  pose proof (shr_fexp_nonneg _ e1 loc_Exact H2) as H3.
  destruct (shr_fexp prec emax _ e1 loc_Exact) as [mrs2 e2]. simpl in H3.
  destruct (shr_m mrs2) as [|p|p]; try lia; try reflexivity.
  destruct (e2 <=? emax - prec)%Z; reflexivity.
Qed.

(** The float of an unsigned decimal numeral is a number and is not
    negative (it is infinite when the numeral is too large). *)
Lemma float_of_decimal_nonneg (m : N) (e : Z) :
  float_nonneg (float_of_decimal false m e).
Proof.
  unfold float_of_decimal. destruct m as [|p]; [reflexivity|].
  destruct (0 <=? e)%Z eqn:E.
  - apply Z.leb_le in E.
    assert (Hp : (0 < Z.pos p * 10 ^ e)%Z)
      by (apply Z.mul_pos_pos; [lia | apply Z.pow_pos_nonneg; lia]).
    destruct (Z.pos p * 10 ^ e)%Z as [|q|q] eqn:Q; try lia.
    unfold binary_normalize, binary_round.
    destruct (shl_align q 0 _) as [mz ez].
    apply binary_round_aux_nonneg. lia.
  - unfold SFdiv_core_binary.
    set (m' := match _ with Z.pos _ => _ | Z0 => _ | Z.neg _ => _ end).
    assert (Hm : (0 <= m')%Z).
    { subst m'. destruct (_ - _ - _)%Z; try lia. apply Z.shiftl_nonneg. lia. }
    assert (Hd : (0 < 10 ^ (- e))%Z)
      by (apply Z.pow_pos_nonneg; apply Z.leb_gt in E; lia).
    pose proof (Z.div_pos m' _ Hm Hd) as Hq.
    unfold Z.div in Hq.
    destruct (Z.div_eucl m' (10 ^ (- e))) as [q r]. simpl in Hq.
    now apply binary_round_aux_nonneg.
Qed.

Lemma assign_amount_nonneg (col : column) (amt : float) :
  float_nonneg amt ->
  let '(debit, credit, balance) := assign_amount col amt in
  float_nonneg debit /\ float_nonneg credit /\ float_nonneg balance.
Proof.
  intros H. destruct col; simpl; repeat split; try assumption; reflexivity.
Qed.

Section AmountSign.
Context {U : UnicodeDB}.

(** [float(cell)] on a cell that matches [AMOUNT_RE] is the float of a
    number of hundredths. *)
Lemma py_float_amount_decimal (cell : str) :
  AMOUNT_RE_match cell = true ->
  exists n, py_float cell = inr (float_of_decimal false n (-2)).
Proof.
  intros H. apply AMOUNT_RE_match_inv in H
    as (ds & d1 & d2 & tl & -> & Hne & Hds & H1 & H2 & Htl).
  set (D := map to_ascii_char ds).
  assert (HD : forallb is_ascii_digit D = true).
  { apply forallb_forall. intros c Hc. apply in_map_iff in Hc as [c0 [<- Hc0]].
    apply isdecimal_to_ascii. rewrite forallb_forall in Hds. now apply Hds. }
  assert (HDne : D <> []).
  { unfold D. destruct ds; [contradiction|discriminate]. }
  apply isdecimal_to_ascii in H1, H2.
  set (a1 := to_ascii_char d1) in *. set (a2 := to_ascii_char d2) in *.
  exists (digits_value (D ++ [a1; a2])).
  unfold py_float.
  assert (Ha : map to_ascii_char (ds ++ chr_dot :: d1 :: d2 :: tl)
               = D ++ [chr_dot; a1; a2] ++ tl).
  { rewrite map_app. simpl. fold D a1 a2. f_equal. f_equal. f_equal. f_equal.
    destruct Htl as [->| ->]; reflexivity. }
  rewrite Ha.
  assert (Hl : dropwhile is_c_space (D ++ [chr_dot; a1; a2] ++ tl)
               = D ++ [chr_dot; a1; a2] ++ tl).
  { destruct D as [|x D']; [contradiction|]. simpl in HD.
    apply andb_true_iff in HD as [Hx _].
    simpl. now rewrite (ascii_digit_not_c_space _ Hx). }
  rewrite Hl.
  assert (Hr : rev (dropwhile is_c_space (rev (D ++ [chr_dot; a1; a2] ++ tl)))
               = D ++ [chr_dot; a1; a2]).
  { rewrite app_assoc, rev_app_distr.
    assert (Hd : dropwhile is_c_space (rev (D ++ [chr_dot; a1; a2]))
                 = rev (D ++ [chr_dot; a1; a2])).
    { rewrite rev_app_distr. simpl. now rewrite (ascii_digit_not_c_space _ H2). }
    destruct Htl as [->| ->]; simpl rev at 1.
    - simpl app at 1. rewrite Hd. apply rev_involutive.
    - simpl app at 1. simpl dropwhile at 1.
      change (is_c_space chr_newline) with true. cbv iota.
      rewrite Hd. apply rev_involutive. }
  rewrite Hr.
  rewrite drop_underscores_none.
  - now rewrite parse_signed_amount.
  - discriminate.
  - rewrite forallb_app. apply andb_true_iff. split.
    + now apply ascii_digits_no_underscore.
    + apply ascii_digit_range in H1, H2. simpl. unfold chr_underscore.
      rewrite !andb_true_r. rewrite !andb_true_iff. repeat split;
        apply negb_true_iff, N.eqb_neq; lia.
Qed.

Lemma scan_amount_nonneg (row : list str) (words : list word)
    (debit credit balance : float) (coords : option coordinates) :
  scan_amount row words = inr (debit, credit, balance, coords) ->
  float_nonneg debit /\ float_nonneg credit /\ float_nonneg balance.
Proof.
  destruct (find AMOUNT_RE_match row) as [cell|] eqn:F.
  - destruct (scan_amount_some row words cell F) as (amt & Ha & ->).
    apply find_some in F as [_ Hm].
    destruct (py_float_amount_decimal cell Hm) as [n Hn].
    assert (amt = float_of_decimal false n (-2)) by congruence. subst amt.
    intros E. inversion E as [[E1 E2]].
    pose proof (assign_amount_nonneg
                  (match find_amount_coordinates words
                           (float_of_decimal false n (-2)) with
                   | Some c => c_column c
                   | None => DEBIT
                   end)
                  (float_of_decimal false n (-2))
                  (float_of_decimal_nonneg n (-2))) as Hs.
    rewrite E1 in Hs. exact Hs.
  - rewrite (scan_amount_none row words F). intros E. inversion E.
    repeat split; reflexivity.
Qed.

(** X1: the debit, the credit and the balance of every transaction the row
    parser gives are numbers at least 0.0: never negative, never a NaN.  The
    row parser reads no sign and no overdraft marker. *)
Theorem X1_row_amounts_nonnegative (row : list str) (idx : nat)
    (words : list word) (inherited_date : str) (tx : transaction) :
  parse_transaction_row row idx words inherited_date = inr (Some tx) ->
  float_nonneg (tx_debit tx) /\ float_nonneg (tx_credit tx) /\
  float_nonneg (tx_balance tx).
Proof.
  destruct (scan_amount_total row words) as (money & coords & Ha & _).
  destruct (scan_date_total row) as [found Hd].
  rewrite (parse_transaction_row_eq row idx words inherited_date _ _ _ Ha Hd).
  intros E. inversion E as [E1]. apply row_result_money in E1.
  destruct money as [[debit credit] balance]. inversion E1; subst.
  exact (scan_amount_nonneg row words _ _ _ coords Ha).
Qed.

End AmountSign.

(** Witness of X1: the row ("Shop", "5.00") on a page without words. *)
Lemma X1_row_amounts_nonnegative_witness :
  exists tx,
    parse_transaction_row [lit "Shop"; lit "5.00"] 0 [] (lit "1 Jan 2024")
      = inr (Some tx) /\
    float_nonneg (tx_debit tx) /\ float_nonneg (tx_credit tx) /\
    float_nonneg (tx_balance tx).
Proof.
  eexists. split; [vm_compute; reflexivity|].
  apply (X1_row_amounts_nonnegative [lit "Shop"; lit "5.00"] 0 []
           (lit "1 Jan 2024")).
  vm_compute. reflexivity.
Defined.

(** ** The amount parser on plain numerals *)

Lemma plain_char_range (c : char) :
  plain_char c = true -> (c = 46 \/ 48 <= c <= 57)%N.
Proof.
  unfold plain_char. intros H. apply orb_true_iff in H as [H|H].
  - right. now apply ascii_digit_range.
  - left. now apply N.eqb_eq in H.
Qed.

Lemma filter_all {A} (p : A -> bool) (l : list A) :
  forallb p l = true -> filter p l = l.
Proof.
  induction l as [|x l IH]; simpl; [reflexivity|].
  intros H. apply andb_true_iff in H as [-> H]. now rewrite IH.
Qed.

Lemma forallb_rev {A} (p : A -> bool) (l : list A) :
  forallb p (rev l) = forallb p l.
Proof.
  induction l as [|x l IH]; simpl; [reflexivity|].
  rewrite forallb_app, IH. simpl. rewrite andb_true_r. apply andb_comm.
Qed.

Lemma dropwhile_none {A} (p : A -> bool) (l : list A) :
  forallb (fun x => negb (p x)) l = true -> dropwhile p l = l.
Proof.
  destruct l as [|x l]; simpl; [reflexivity|].
  intros H. apply andb_true_iff in H as [H _].
  apply negb_true_iff in H. now rewrite H.
Qed.

Section PlainNumerals.
Context {U : UnicodeDB}.

Lemma plain_not_space (c : char) : plain_char c = true -> isspace c = false.
Proof.
  intros H. apply plain_char_range in H. unfold isspace, is_ascii, between.
  replace (c <? 128)%N with true by (symmetry; apply N.ltb_lt; lia).
  replace (c <=? 13)%N with false by (symmetry; apply N.leb_gt; lia).
  replace (c <=? 31)%N with false by (symmetry; apply N.leb_gt; lia).
  replace (c =? 32)%N with false by (symmetry; apply N.eqb_neq; lia).
  now rewrite !andb_false_r.
Qed.

Lemma plain_lower (c : char) : plain_char c = true -> lower_char c = [c].
Proof.
  intros H. apply plain_char_range in H. unfold lower_char, is_ascii, between.
  replace (c <? 128)%N with true by (symmetry; apply N.ltb_lt; lia).
  replace (65 <=? c)%N with false by (symmetry; apply N.leb_gt; lia).
  reflexivity.
Qed.

Lemma plain_strip (text : str) :
  forallb plain_char text = true -> strip text = text.
Proof.
  intros H.
  assert (Hs : forall l, forallb plain_char l = true ->
                         forallb (fun x => negb (isspace x)) l = true).
  { intros l Hl. apply forallb_forall. intros c Hc.
    rewrite forallb_forall in Hl. apply negb_true_iff, plain_not_space.
    now apply Hl. }
  unfold strip, lstrip, rstrip.
  rewrite (dropwhile_none isspace text (Hs text H)).
  rewrite dropwhile_none; [apply rev_involutive|].
  apply Hs. now rewrite forallb_rev.
Qed.

Lemma plain_amount_text (text : str) :
  forallb plain_char text = true -> amount_text text = text.
Proof.
  intros H. unfold amount_text. rewrite (plain_strip text H).
  assert (L : lower text = text).
  { unfold lower. clear -H. induction text as [|c text IH]; [reflexivity|].
    simpl in H. apply andb_true_iff in H as [Hc H].
    simpl. rewrite (plain_lower c Hc), IH by assumption. reflexivity. }
  rewrite L. change (lit ",") with [44%N]. rewrite !replace_single.
  assert (F : forall k, (k = 8364 \/ k = 163 \/ k = 44)%N ->
              filter (fun x => negb (x =? k)%N) text = text).
  { intros k Hk. apply filter_all. apply forallb_forall. intros c Hc.
    rewrite forallb_forall in H. apply H in Hc. apply plain_char_range in Hc.
    apply negb_true_iff, N.eqb_neq. lia. }
  unfold chr_euro, chr_pound. rewrite !F; auto.
Qed.

Lemma plain_no_marker (text : str) :
  forallb plain_char text = true -> contains (lit "dr") text = false.
Proof.
  intros H. destruct (contains (lit "dr") text) eqn:C; [|reflexivity].
  apply contains_spec in C as (pre & post & ->).
  rewrite forallb_app in H. apply andb_true_iff in H as [_ H].
  simpl in H. discriminate.
Qed.

(** X2: on a text made of digits and points, such as the cells the row
    parser reads as amounts, the amount parser gives what [float] gives,
    for a balance or not, and 0.0 where [float] raises. *)
Theorem X2_parse_amount_plain (text : str) (is_balance : bool) :
  text <> [] ->
  forallb plain_char text = true ->
  parse_amount_field text is_balance =
  inr (match py_float text with inr v => v | inl _ => float_zero end).
Proof.
  intros Hne H.
  assert (T : truthy (strip text) = true).
  { rewrite (plain_strip text H). now destruct text. }
  rewrite (parse_amount_field_started text is_balance T).
  rewrite (plain_amount_text text H), (plain_no_marker text H).
  rewrite amount_value_eq.
  assert (M : startswith [chr_minus] text = false).
  { destruct text as [|c text]; [reflexivity|]. simpl in H.
    apply andb_true_iff in H as [Hc _]. apply plain_char_range in Hc.
    change (startswith [chr_minus] (c :: text))
      with ((chr_minus =? c)%N && true).
    rewrite andb_true_r. apply N.eqb_neq. unfold chr_minus. lia. }
  rewrite M, andb_false_r. reflexivity.
Qed.

End PlainNumerals.

(** Witness of X2: "1454.70" as a balance. *)
Lemma X2_parse_amount_plain_witness :
  parse_amount_field (lit "1454.70") true =
  inr (match py_float (lit "1454.70") with inr v => v | inl _ => float_zero end).
Proof.
  apply X2_parse_amount_plain; [discriminate | vm_compute; reflexivity].
Defined.

(** ** The date of the raw text *)

Lemma first_some_some {A B} (f : A -> option B) (l : list A) (b : B) :
  first_some f l = Some b -> exists a, In a l /\ f a = Some b.
Proof.
  induction l as [|a l IH]; simpl; [discriminate|].
  destruct (f a) as [b'|] eqn:E.
  - intros H. inversion H; subst. exists a. auto.
  - intros H. destruct (IH H) as (a' & Hin & Ha'). exists a'. auto.
Qed.

Lemma first_some_exists {A B} (f : A -> option B) (l : list A) (a : A) (b : B) :
  In a l -> f a = Some b -> exists b', first_some f l = Some b'.
Proof.
  induction l as [|x l IH]; simpl; [contradiction|].
  intros [->|Hin] Ha.
  - rewrite Ha. eauto.
  - destruct (f x) as [b'|]; [eauto | now apply IH].
Qed.

Lemma firstn_length_app {A} (d r : list A) : firstn (List.length d) (d ++ r) = d.
Proof. induction d as [|x d IH]; simpl; [reflexivity | now rewrite IH]. Qed.

Lemma skipn_length_app {A} (d r : list A) : skipn (List.length d) (d ++ r) = r.
Proof. induction d as [|x d IH]; simpl; [reflexivity | exact IH]. Qed.

Lemma takewhile_firstn {A} (p : A -> bool) (s : list A) (k : nat) :
  (k <= List.length (takewhile p s))%nat -> forallb p (firstn k s) = true.
Proof.
  revert k. induction s as [|x s IH]; intros k Hk.
  - now rewrite firstn_nil.
  - destruct k as [|k]; [reflexivity|]. simpl in Hk. simpl.
    destruct (p x); simpl in Hk; [|lia]. apply IH. lia.
Qed.

Lemma takewhile_app_length {A} (p : A -> bool) (ws r : list A) :
  forallb p ws = true ->
  (List.length ws <= List.length (takewhile p (ws ++ r)))%nat.
Proof.
  induction ws as [|x ws IH]; simpl; [lia|].
  intros H. apply andb_true_iff in H as [-> H]. simpl.
  specialize (IH H). lia.
Qed.

(** A text that ends in a character of a class, inside a text whose end
    [l2] has no character of that class, ends before [l2]. *)
Lemma app_cut {A} (p : A -> bool) (l1 l2 b0 r : list A) (z : A) :
  l1 ++ l2 = (b0 ++ [z]) ++ r ->
  p z = true -> forallb (fun x => negb (p x)) l2 = true ->
  exists r', l1 = (b0 ++ [z]) ++ r' /\ r = r' ++ l2.
Proof.
  revert b0. induction l1 as [|c l1 IH]; intros b0 E Hz Hl.
  - simpl in E. exfalso.
    rewrite forallb_forall in Hl.
    assert (Hin : In z l2) by (rewrite E; apply in_or_app; left;
                               apply in_or_app; right; now left).
    apply Hl in Hin. rewrite Hz in Hin. discriminate.
  - destruct b0 as [|x b0]; simpl in E; inversion E; subst.
    + exists l1. auto.
    + destruct (IH b0 H1 Hz Hl) as (r' & -> & ->). exists r'. auto.
Qed.

Section RawDate.
Context {U : UnicodeDB}.

Lemma match_digits_some (n : nat) (s d r : str) :
  match_digits n s = Some (d, r) ->
  s = d ++ r /\ List.length d = n /\ forallb isdecimal d = true.
Proof.
  unfold match_digits.
  destruct (n <=? List.length s)%nat eqn:L; simpl; [|discriminate].
  destruct (forallb isdecimal (firstn n s)) eqn:F; [|discriminate].
  intros H. inversion H; subst. apply Nat.leb_le in L.
  repeat split.
  - symmetry. apply firstn_skipn.
  - rewrite length_firstn. lia.
  - assumption.
Qed.

Lemma match_digits_app (d r : str) :
  forallb isdecimal d = true ->
  match_digits (List.length d) (d ++ r) = Some (d, r).
Proof.
  intros H. unfold match_digits.
  rewrite firstn_length_app, skipn_length_app, H, length_app.
  replace (List.length d <=? List.length d + List.length r)%nat with true
    by (symmetry; apply Nat.leb_le; lia).
  reflexivity.
Qed.

Lemma space_runs_in (k : nat) (s : str) :
  In k (space_runs s) <->
  (1 <= k <= List.length (takewhile isspace s))%nat.
Proof. unfold space_runs. rewrite <- in_rev, in_seq. lia. Qed.

Lemma space_run_split (k : nat) (s : str) :
  In k (space_runs s) ->
  s = firstn k s ++ skipn k s /\ firstn k s <> [] /\
  forallb isspace (firstn k s) = true.
Proof.
  intros H. apply space_runs_in in H.
  split; [symmetry; apply firstn_skipn|]. split.
  - pose proof (takewhile_dropwhile isspace s) as E.
    assert (L : (List.length (takewhile isspace s) <= List.length s)%nat).
    { rewrite <- E at 2. rewrite length_app. lia. }
    intros C. apply (f_equal (@List.length char)) in C.
    rewrite length_firstn in C. simpl in C. lia.
  - apply takewhile_firstn. lia.
Qed.

Lemma DATE_RE_match_at_sound (s day month year : str) :
  DATE_RE_match_at s = Some (day, month, year) -> date_prefix s day month year.
Proof.
  unfold DATE_RE_match_at. intros H.
  apply first_some_some in H as (n & Hn & H).
  destruct (match_digits n s) as [[day0 r1]|] eqn:D; [|discriminate].
  apply match_digits_some in D as (Es & Ld & Fd).
  apply first_some_some in H as (k & Hk & H).
  apply first_some_some in H as (month0 & Hm & H).
  destruct (startswith month0 (skipn k r1)) eqn:S; [|discriminate].
  apply startswith_spec in S as (r3 & E2).
  rewrite E2, skipn_length_app in H.
  apply first_some_some in H as (k2 & Hk2 & H).
  destruct (match_digits 4 (skipn k2 r3)) as [[year0 rest]|] eqn:Y;
    [|discriminate].
  apply match_digits_some in Y as (Ey & Ly & Fy).
  inversion H; subst day0 month0 year0.
  apply space_run_split in Hk as (E1 & N1 & F1).
  apply space_run_split in Hk2 as (E3 & N3 & F3).
  exists (firstn k r1), (firstn k2 r3), rest.
  repeat split; try assumption.
  - rewrite Es at 1. f_equal. rewrite E1 at 1. f_equal.
    rewrite E2. f_equal. rewrite E3 at 1. f_equal. exact Ey.
  - destruct Hn as [<-|[<-|[]]]; [now right | now left].
Qed.

Lemma DATE_RE_match_at_complete (s day month year : str) :
  date_prefix s day month year -> exists g, DATE_RE_match_at s = Some g.
Proof.
  intros (ws1 & ws2 & rest & -> & Ld & Fd & N1 & F1 & Hm & N2 & F2 & Ly & Fy).
  unfold DATE_RE_match_at.
  assert (Inner : exists g,
             first_some (fun k2 =>
               match match_digits 4 (skipn k2 (ws2 ++ year ++ rest)) with
               | Some (year0, _) => Some (day, month, year0)
               | None => None
               end) (space_runs (ws2 ++ year ++ rest)) = Some g).
  { apply (first_some_exists _ _ (List.length ws2) (day, month, year)).
    - apply space_runs_in. split.
      + destruct ws2; [contradiction | simpl; lia].
      + now apply takewhile_app_length.
    - rewrite skipn_length_app, <- Ly, match_digits_app by assumption.
      reflexivity. }
  destruct Inner as [g Hg].
  assert (Months : exists g',
             first_some (fun month0 =>
               if startswith month0 (month ++ ws2 ++ year ++ rest)
               then
                 let r3 := skipn (List.length month0)
                             (month ++ ws2 ++ year ++ rest) in
                 first_some (fun k2 =>
                   match match_digits 4 (skipn k2 r3) with
                   | Some (year0, _) => Some (day, month0, year0)
                   | None => None
                   end) (space_runs r3)
               else None) MONTHS = Some g').
  { apply (first_some_exists _ _ month g); [assumption|].
    replace (startswith month (month ++ ws2 ++ year ++ rest)) with true
      by (symmetry; apply startswith_spec; eauto).
    cbv zeta. rewrite skipn_length_app. exact Hg. }
  destruct Months as [g' Hg'].
  assert (Spaces : exists g'',
             first_some (fun k =>
               let r2 := skipn k (ws1 ++ month ++ ws2 ++ year ++ rest) in
               first_some (fun month0 =>
                 if startswith month0 r2
                 then
                   let r3 := skipn (List.length month0) r2 in
                   first_some (fun k2 =>
                     match match_digits 4 (skipn k2 r3) with
                     | Some (year0, _) => Some (day, month0, year0)
                     | None => None
                     end) (space_runs r3)
                 else None) MONTHS)
               (space_runs (ws1 ++ month ++ ws2 ++ year ++ rest)) = Some g'').
  { apply (first_some_exists _ _ (List.length ws1) g').
    - apply space_runs_in. split.
      + destruct ws1; [contradiction | simpl; lia].
      + now apply takewhile_app_length.
    - cbv zeta. rewrite skipn_length_app. exact Hg'. }
  destruct Spaces as [g'' Hg''].
  apply (first_some_exists _ _ (List.length day) g'').
  - destruct Ld as [->| ->]; simpl; auto.
  - rewrite match_digits_app by assumption. exact Hg''.
Qed.

Lemma DATE_RE_search_sound (s : str) g :
  DATE_RE_search s = Some g ->
  exists pre s', s = pre ++ s' /\ DATE_RE_match_at s' = Some g.
Proof.
  induction s as [|c s IH]; cbn [DATE_RE_search].
  - destruct (DATE_RE_match_at []) eqn:M; [|discriminate].
    intros H. inversion H; subst. now exists [], [].
  - destruct (DATE_RE_match_at (c :: s)) eqn:M.
    + intros H. inversion H; subst. now exists [], (c :: s).
    + intros H. destruct (IH H) as (pre & s' & -> & Hm).
      now exists (c :: pre), s'.
Qed.

Lemma DATE_RE_search_complete (pre s' : str) g :
  DATE_RE_match_at s' = Some g ->
  exists g', DATE_RE_search (pre ++ s') = Some g'.
Proof.
  intros Hm. induction pre as [|c pre IH].
  - cbn [app]. destruct s' as [|c s']; cbn [DATE_RE_search]; rewrite Hm; eauto.
  - cbn [app DATE_RE_search]. destruct (DATE_RE_match_at (c :: pre ++ s')); eauto.
Qed.

(** No character of the text " BALANCE FORWARD" is a decimal digit. *)
Lemma anchor_suffix_no_digit :
  forallb (fun c => negb (isdecimal c)) (lit " BALANCE FORWARD") = true.
Proof. reflexivity. Qed.

(** X3: a date found in the raw text of a page is written in that text: a
    day of one or two decimal digits, white space, a month of the list,
    white space and a year of four decimal digits, which the date joins by
    single blanks.  The words " BALANCE FORWARD" that the search adds to the
    text are no part of it. *)
Theorem X3_raw_text_date_sound (text date : str) :
  extract_date_from_raw_text text = Some date ->
  exists pre s' day month year,
    text = pre ++ s' /\ date_prefix s' day month year /\
    date = compose_date day month year.
Proof.
  unfold extract_date_from_raw_text.
  destruct (DATE_RE_search _) as [[[day month] year]|] eqn:S; [|discriminate].
  intros H. inversion H; subst date. clear H.
  apply DATE_RE_search_sound in S as (pre & s' & E & M).
  apply DATE_RE_match_at_sound in M
    as (ws1 & ws2 & rest & -> & Ld & Fd & N1 & F1 & Hm & N2 & F2 & Ly & Fy).
  destruct year as [|y0 [|y1 [|y2 [|y3 [|? ?]]]]]; try discriminate.
  pose proof Fy as Fy'.
  simpl in Fy. rewrite !andb_true_iff in Fy. destruct Fy as (_ & _ & _ & Fy3 & _).
  assert (E' : text ++ lit " BALANCE FORWARD" =
               ((pre ++ day ++ ws1 ++ month ++ ws2 ++ [y0; y1; y2]) ++ [y3])
               ++ rest).
  { rewrite E. rewrite <- !app_assoc. simpl. reflexivity. }
  destruct (app_cut isdecimal _ _ _ _ _ E' Fy3 anchor_suffix_no_digit)
    as (r' & Et & _).
  exists pre, (day ++ ws1 ++ month ++ ws2 ++ [y0; y1; y2; y3] ++ r'),
    day, month, [y0; y1; y2; y3].
  split; [|split; [|reflexivity]].
  - rewrite Et. rewrite <- !app_assoc. simpl. reflexivity.
  - exists ws1, ws2, r'. repeat split; assumption.
Qed.

(** X4: the search of the raw text finds a date whenever the text writes
    one somewhere: it answers none only for a text without any day, month
    and year in a row. *)
Theorem X4_raw_text_date_complete (text pre s' day month year : str) :
  text = pre ++ s' -> date_prefix s' day month year ->
  exists date, extract_date_from_raw_text text = Some date.
Proof.
  intros -> (ws1 & ws2 & rest & -> & Hrest).
  assert (P : date_prefix
                (day ++ ws1 ++ month ++ ws2 ++ year
                 ++ (rest ++ lit " BALANCE FORWARD")) day month year).
  { exists ws1, ws2, (rest ++ lit " BALANCE FORWARD"). split; [reflexivity|].
    exact Hrest. }
  apply DATE_RE_match_at_complete in P as [g Hg].
  destruct (DATE_RE_search_complete pre _ g Hg) as [[[d m] y] Hs].
  unfold extract_date_from_raw_text.
  replace ((pre ++ day ++ ws1 ++ month ++ ws2 ++ year ++ rest)
           ++ lit " BALANCE FORWARD")
    with (pre ++ day ++ ws1 ++ month ++ ws2 ++ year
          ++ rest ++ lit " BALANCE FORWARD")
    by (now rewrite <- !app_assoc).
  rewrite Hs. eauto.
Qed.

End RawDate.

(** Witness of X3: the text "Statement of 31 Dec 2023". *)
Lemma X3_raw_text_date_sound_witness :
  exists pre s' day month year,
    lit "Statement of 31 Dec 2023" = pre ++ s' /\
    date_prefix s' day month year /\
    lit "31 Dec 2023" = compose_date day month year.
Proof.
  apply (X3_raw_text_date_sound (lit "Statement of 31 Dec 2023")
           (lit "31 Dec 2023")).
  vm_compute. reflexivity.
Defined.

(** Witness of X4: the same text, read as "Statement of " and the date. *)
Lemma X4_raw_text_date_complete_witness :
  exists date,
    extract_date_from_raw_text (lit "Statement of 31 Dec 2023") = Some date.
Proof.
  apply (X4_raw_text_date_complete (lit "Statement of 31 Dec 2023")
           (lit "Statement of ") (lit "31 Dec 2023")
           (lit "31") (lit "Dec") (lit "2023")).
  - reflexivity.
  - exists [chr_space], [chr_space], [].
    split; [reflexivity|]. split; [right; reflexivity|].
    split; [reflexivity|]. split; [discriminate|]. split; [reflexivity|].
    split; [unfold MONTHS; simpl; tauto|].
    split; [discriminate|]. split; [reflexivity|].
    split; reflexivity.
Defined.

(** ** The rows and the dates of the transactions of a page *)

Lemma StronglySorted_lt_cons (x : nat) (l : list nat) :
  Forall (fun y => (x < y)%nat) l -> StronglySorted lt l ->
  StronglySorted lt (x :: l).
Proof. intros H Hso. now constructor. Qed.

Section PageRows.
Context {U : UnicodeDB}.

Lemma parse_transaction_row_row (row : list str) (idx : nat)
    (words : list word) (inherited_date : str) (tx : transaction) :
  parse_transaction_row row idx words inherited_date = inr (Some tx) ->
  tx_row tx = idx.
Proof.
  destruct (scan_amount_total row words) as (money & coords & Ha & _).
  destruct (scan_date_total row) as [found Hd].
  rewrite (parse_transaction_row_eq row idx words inherited_date _ _ _ Ha Hd).
  intros H. inversion H as [H1]. now apply row_result_row in H1.
Qed.

(** The transactions the loop adds carry the indices of rows that are not
    blank, in increasing order. *)
Lemma page_rows_loop_rows (rows : table) (idx : nat) (words : list word)
    (current_date : str) (txs out : list transaction) :
  page_rows_loop rows idx words current_date txs = inr out ->
  exists added,
    out = txs ++ added /\
    Forall (fun tx =>
              (idx <= tx_row tx)%nat /\
              exists raw_row,
                nth_error rows (tx_row tx - idx) = Some raw_row /\
                nonblank raw_row = true) added /\
    StronglySorted lt (map tx_row added).
Proof.
  revert idx current_date txs.
  induction rows as [|raw_row rows IH]; intros idx cur txs; simpl.
  - intros H. inversion H; subst. exists []. rewrite app_nil_r.
    repeat split; constructor.
  - assert (Shift : forall acc cur',
              page_rows_loop rows (S idx) words cur' acc = inr out ->
              exists added,
                out = acc ++ added /\
                Forall (fun tx =>
                          (S idx <= tx_row tx)%nat /\
                          exists raw,
                            nth_error (raw_row :: rows) (tx_row tx - idx)
                              = Some raw /\
                            nonblank raw = true) added /\
                StronglySorted lt (map tx_row added)).
    { intros acc cur' H. destruct (IH _ _ _ H) as (added & -> & F & Hso).
      exists added. split; [reflexivity|]. split; [|assumption].
      eapply Forall_impl; [|exact F]. intros tx (Hle & raw & Hn & Hb).
      split; [assumption|]. exists raw. split; [|assumption].
      replace (tx_row tx - idx)%nat with (S (tx_row tx - S idx)) by lia.
      exact Hn. }
    assert (Weak : forall acc cur',
              page_rows_loop rows (S idx) words cur' acc = inr out ->
              exists added,
                out = acc ++ added /\
                Forall (fun tx =>
                          (idx <= tx_row tx)%nat /\
                          exists raw,
                            nth_error (raw_row :: rows) (tx_row tx - idx)
                              = Some raw /\
                            nonblank raw = true) added /\
                StronglySorted lt (map tx_row added)).
    { intros acc cur' H. destruct (Shift _ _ H) as (added & -> & F & Hso).
      exists added. split; [reflexivity|]. split; [|assumption].
      eapply Forall_impl; [|exact F]. intros tx (Hle & Hr).
      split; [lia | exact Hr]. }
    destruct (existsb (fun cell => truthy (strip cell)) raw_row) eqn:B; simpl;
      [|apply Weak].
    destruct (parse_transaction_row_total (map strip raw_row) idx words cur)
      as [parsed Hp].
    rewrite Hp. simpl. destruct parsed as [tx|]; [|apply Weak].
    pose proof (parse_transaction_row_row _ _ _ _ _ Hp) as Hrow.
    assert (Step : forall tx' cur',
              tx_row tx' = idx ->
              page_rows_loop rows (S idx) words cur' (txs ++ [tx']) = inr out ->
              exists added,
                out = txs ++ added /\
                Forall (fun tx =>
                          (idx <= tx_row tx)%nat /\
                          exists raw,
                            nth_error (raw_row :: rows) (tx_row tx - idx)
                              = Some raw /\
                            nonblank raw = true) added /\
                StronglySorted lt (map tx_row added)).
    { intros tx' cur' Hr H. destruct (Shift _ _ H) as (added & -> & F & Hso).
      exists (tx' :: added). split; [now rewrite <- app_assoc|].
      split.
      - constructor.
        + split; [lia|]. exists raw_row. rewrite Hr, Nat.sub_diag.
          split; [reflexivity | exact B].
        + eapply Forall_impl; [|exact F]. intros t0 (Hle & Hrest).
          split; [lia | exact Hrest].
      - simpl. apply StronglySorted_lt_cons; [|assumption].
        apply Forall_map. eapply Forall_impl; [|exact F].
        intros t0 (Hle & _). lia. }
    destruct (truthy (tx_date tx) && negb (str_eqb (tx_date tx) cur)).
    + apply Step. exact Hrow.
    + apply Step. exact Hrow.
Qed.

(** X5: every transaction of a page carries in [row] the index of a row of
    the table that is not blank, at or after the first transaction row, and
    the transactions come in the order of their rows, one per row at most. *)
Theorem X5_transactions_follow_rows (t : table) (page_num : nat) (pg : page)
    (words : list word) (txs : list transaction) :
  clean_page_transactions t page_num pg words = inr txs ->
  exists start_idx,
    find_transaction_start_index t = inr start_idx /\
    Forall (fun tx =>
              (start_idx <= tx_row tx)%nat /\
              exists raw_row,
                nth_error t (tx_row tx) = Some raw_row /\
                nonblank raw_row = true) txs /\
    StronglySorted lt (map tx_row txs).
Proof.
  intros H.
  destruct (initial_date_of_cases t pg) as [[init Hi]|(msg & _ & Hi & _)].
  - destruct (clean_page_transactions_from t page_num pg words init Hi)
      as (idx & Hs & E).
    rewrite E in H. apply page_rows_loop_rows in H as (added & -> & F & Hso).
    exists idx. split; [assumption|]. split; [|assumption].
    eapply Forall_impl; [|exact F]. intros tx (Hle & raw & Hn & Hb).
    split; [assumption|]. exists raw. split; [|assumption].
    rewrite nth_error_skipn in Hn.
    replace (idx + (tx_row tx - idx))%nat with (tx_row tx) in Hn by lia.
    exact Hn.
  - unfold clean_page_transactions in H. rewrite Hi in H. discriminate.
Qed.

(** X6: when the initial date of a page is not empty, page assembly gives
    exactly one transaction for each row that is not blank from the first
    transaction row on, with the index of that row and with the date the
    row writes or, failing that, the date of the nearest row before it that
    writes one, or the initial date.  Neither the words of the page nor the
    amounts change the rows or the dates. *)
Theorem X6_one_transaction_per_row (t : table) (page_num : nat) (pg : page)
    (words : list word) (init : str) :
  initial_date_of t pg = inr init -> init <> [] ->
  exists start_idx txs,
    find_transaction_start_index t = inr start_idx /\
    clean_page_transactions t page_num pg words = inr txs /\
    map (fun tx => (tx_row tx, tx_date tx)) txs =
    carried_dates (skipn start_idx t) start_idx init.
Proof.
  intros Hi Hne.
  destruct (clean_page_transactions_from t page_num pg words init Hi)
    as (idx & Hs & E).
  destruct (page_rows_loop_carried (skipn idx t) idx words init [] Hne)
    as (out & Ho & Hm).
  exists idx, out. split; [assumption|]. split; [now rewrite E|].
  exact Hm.
Qed.

End PageRows.

(** Witness of X5: the sample page, whose blank row gives nothing. *)
Lemma X5_transactions_follow_rows_witness :
  exists txs start_idx,
    clean_page_transactions sample_table 1 sample_page [] = inr txs /\
    find_transaction_start_index sample_table = inr start_idx /\
    map tx_row txs = [0; 2]%nat /\
    StronglySorted lt (map tx_row txs).
Proof.
  eexists. 
  assert (E : clean_page_transactions sample_table 1 sample_page [] = inr _)
    by (vm_compute; reflexivity).
  destruct (X5_transactions_follow_rows sample_table 1 sample_page [] _ E)
    as (idx & Hs & _ & Hso).
  exists idx. split; [exact E|]. split; [exact Hs|].
  split; [reflexivity | exact Hso].
Defined.

(** Witness of X6: the sample page, whose initial date is "31 Dec 2023". *)
Lemma X6_one_transaction_per_row_witness :
  exists start_idx txs,
    find_transaction_start_index sample_table = inr start_idx /\
    clean_page_transactions sample_table 1 sample_page [] = inr txs /\
    map (fun tx => (tx_row tx, tx_date tx)) txs =
    carried_dates (skipn start_idx sample_table) start_idx (lit "31 Dec 2023").
Proof.
  apply (X6_one_transaction_per_row sample_table 1 sample_page []
           (lit "31 Dec 2023")).
  - vm_compute. reflexivity.
  - discriminate.
Defined.

(** ** The first transaction row *)

Section StartIndex.
Context {U : UnicodeDB}.

Lemma start_index_loop_none (rows t : table) (i : nat) :
  (forall row, In row rows ->
               has_anchor (upper (join [chr_space] (map strip row))) = false) ->
  start_index_loop rows i t = inr 0%nat.
Proof.
  revert i. induction rows as [|row rows IH]; intros i H; simpl.
  - reflexivity.
  - rewrite (H row (or_introl eq_refl)). apply IH.
    intros r Hr. apply H. now right.
Qed.

Lemma start_index_loop_first (pre post t : table) (row : list str) (i : nat) :
  (forall r, In r pre ->
             has_anchor (upper (join [chr_space] (map strip r))) = false) ->
  has_anchor (upper (join [chr_space] (map strip row))) = true ->
  start_index_loop (pre ++ row :: post) i t =
  skip_blank_rows (List.length t) t (i + List.length pre + 3).
Proof.
  revert i. induction pre as [|r pre IH]; intros i Hpre Hrow; simpl.
  - rewrite Hrow. now rewrite Nat.add_0_r.
  - rewrite (Hpre r (or_introl eq_refl)).
    rewrite IH; [|intros r' Hr'; apply Hpre; now right | assumption].
    f_equal. lia.
Qed.

Lemma in_firstn_nth {A} (n : nat) (l : list A) (x : A) :
  In x (firstn n l) -> exists k, (k < n)%nat /\ nth_error l k = Some x.
Proof.
  intros H. apply In_nth_error in H as [k Hk].
  rewrite nth_error_firstn in Hk.
  destruct (k <? n)%nat eqn:L; [|discriminate].
  apply Nat.ltb_lt in L. now exists k.
Qed.

(** X7: the search of the first transaction row answers 0 when none of the
    first 12 rows holds an anchor phrase (cells stripped and joined by
    blanks).  Otherwise, for the first such row [i], it answers the first
    index from [i + 3] on whose row has a cell that is not the empty
    string, or the first index past the table when there is none (and
    [i + 3] itself when that is past the table). *)
Theorem X7_first_transaction_row (t : table) :
  ((forall i, (i < 12)%nat -> ~ anchor_row_stripped t i) ->
   find_transaction_start_index t = inr 0%nat) /\
  (forall i,
     (i < 12)%nat -> anchor_row_stripped t i ->
     (forall i', (i' < i)%nat -> ~ anchor_row_stripped t i') ->
     exists idx,
       find_transaction_start_index t = inr idx /\
       (i + 3 <= idx <= Nat.max (i + 3) (List.length t))%nat /\
       (forall k, (i + 3 <= k < idx)%nat ->
                  exists row, nth_error t k = Some row /\ any_cell row = false) /\
       ((idx < List.length t)%nat ->
        exists row, nth_error t idx = Some row /\ any_cell row = true)).
Proof.
  unfold find_transaction_start_index. split.
  - intros H. apply start_index_loop_none. intros row Hin.
    apply in_firstn_nth in Hin as (k & Hk & Hn).
    destruct (has_anchor (upper (join [chr_space] (map strip row)))) eqn:A;
      [|reflexivity].
    exfalso. apply (H k Hk). now exists row.
  - intros i Hi (row & Hn & Ha) Hmin.
    assert (Hn12 : nth_error (firstn 12 t) i = Some row).
    { rewrite nth_error_firstn. apply Nat.ltb_lt in Hi. now rewrite Hi. }
    pose proof (firstn_skipn_middle i (firstn 12 t) Hn12) as Split.
    assert (Hlen : List.length (firstn i (firstn 12 t)) = i).
    { rewrite length_firstn. apply Nat.min_l.
      apply Nat.lt_le_incl. apply nth_error_Some. congruence. }
    rewrite <- Split.
    rewrite start_index_loop_first; [| |assumption].
    + rewrite Hlen. simpl.
      destruct (skip_blank_rows_spec t (List.length t) (i + 3))
        as (r & Hr & Hb & Hblank & Hstop); [lia|].
      exists r. split; [assumption|]. split; [assumption|].
      split; assumption.
    + intros r Hin. apply in_firstn_nth in Hin as (k & Hk & Hnk).
      rewrite nth_error_firstn in Hnk.
      destruct (k <? 12)%nat; [|discriminate].
      destruct (has_anchor (upper (join [chr_space] (map strip r)))) eqn:A;
        [|reflexivity].
      exfalso. apply (Hmin k Hk). now exists r.
Qed.

End StartIndex.

(** Witness of X7: the anchor row, three blank rows, then a row. *)
Lemma X7_first_transaction_row_witness :
  let t := [ [lit "BALANCE FORWARD"]; [lit ""]; [lit ""]; [lit ""; lit ""];
             [lit "Coffee"; lit "3.00"] ] in
  exists idx,
    find_transaction_start_index t = inr idx /\
    (0 + 3 <= idx <= Nat.max (0 + 3) (List.length t))%nat /\
    (forall k, (0 + 3 <= k < idx)%nat ->
               exists row, nth_error t k = Some row /\ any_cell row = false) /\
    ((idx < List.length t)%nat ->
     exists row, nth_error t idx = Some row /\ any_cell row = true).
Proof.
  intros t. apply (proj2 (X7_first_transaction_row t) 0%nat).
  - lia.
  - exists [lit "BALANCE FORWARD"]. split; vm_compute; reflexivity.
  - intros i' Hi'. lia.
Defined.

(** ** The pages of a document *)

Section Pages.
Context {U : UnicodeDB}.

(** The loop over the pages only appends to the list it was given, and
    what it appends depends neither on that list nor on the page number. *)
Lemma pages_loop_appends (pages : list (external page)) (p : nat)
    (acc out : list transaction) :
  pages_loop pages p acc = inr out ->
  exists added,
    out = acc ++ added /\
    forall p' acc', pages_loop pages p' acc' = inr (acc' ++ added).
Proof.
  revert p acc. induction pages as [|loaded pages IH]; intros p acc; simpl.
  - intros H. inversion H; subst. exists []. split; [now rewrite app_nil_r|].
    intros p' acc'. now rewrite app_nil_r.
  - destruct loaded as [msg|pg]; simpl; [discriminate|].
    destruct (get_text_words pg) as [msg|words]; simpl; [discriminate|].
    destruct (find_tables pg) as [msg|tables]; simpl; [discriminate|].
    destruct tables as [|first rest].
    + intros H. destruct (IH _ _ H) as (added & -> & Hall).
      exists added. split; [reflexivity|]. intros p' acc'. apply Hall.
    + destruct (extract first) as [msg|raw_table]; simpl; [discriminate|].
      change (clean_page_transactions raw_table (p + 1) pg words)
        with (clean_page_transactions raw_table 0 pg words).
      destruct (clean_page_transactions raw_table 0 pg words) as [e|txs] eqn:C;
        simpl; [discriminate|].
      intros H. destruct (IH _ _ H) as (added & -> & Hall).
      exists (txs ++ added). split; [now rewrite app_assoc|].
      intros p' acc'.
      change (clean_page_transactions raw_table (p' + 1) pg words)
        with (clean_page_transactions raw_table 0 pg words).
      rewrite C. simpl. rewrite Hall. now rewrite app_assoc.
Qed.

Lemma pages_loop_app (ps1 ps2 : list (external page)) (p : nat)
    (acc : list transaction) :
  pages_loop (ps1 ++ ps2) p acc =
  bind (pages_loop ps1 p acc)
       (fun r => pages_loop ps2 (p + List.length ps1) r).
Proof.
  revert p acc. induction ps1 as [|loaded ps1 IH]; intros p acc.
  - simpl. now rewrite Nat.add_0_r.
  - replace (p + List.length (loaded :: ps1))%nat
      with (S p + List.length ps1)%nat by (simpl; lia).
    simpl.
    destruct loaded as [msg|pg]; simpl; [reflexivity|].
    destruct (get_text_words pg) as [msg|words]; simpl; [reflexivity|].
    destruct (find_tables pg) as [msg|tables]; simpl; [reflexivity|].
    destruct tables as [|first rest].
    + rewrite IH. reflexivity.
    + destruct (extract first) as [msg|raw_table]; simpl; [reflexivity|].
      destruct (clean_page_transactions raw_table (p + 1) pg words)
        as [e|txs]; simpl; [reflexivity|].
      rewrite IH. reflexivity.
Qed.

End Pages.

Section Documents.
Context {U : UnicodeDB}.

Lemma read_pdf_and_extract_ok (doc : document) (h h' : handle)
    (txs : list transaction) :
  read_pdf_and_extract (inr doc) h = (inr txs, h') <->
  pages_loop (doc_pages doc) 0 [] = inr txs /\ h' = Closed.
Proof.
  unfold read_pdf_and_extract, io_bind, pymupdf_open, io_lift, doc_close, io_ret.
  simpl. destruct (pages_loop (doc_pages doc) 0 []) as [e|all_txs]; simpl.
  - split; [discriminate | intros [H _]; discriminate].
  - split.
    + intros H. inversion H. auto.
    + intros [H ->]. inversion H. reflexivity.
Qed.

(** X8: the transactions of a document are those of its pages, in the
    order of the pages: when two lists of pages are each read without
    exception, the document made of the first followed by the second gives
    the transactions of the first followed by those of the second, and its
    handle is closed. *)
Theorem X8_document_pages_compose (ps1 ps2 : list (external page))
    (h1 h2 h h1' h2' : handle) (txs1 txs2 : list transaction) :
  read_pdf_and_extract (inr (mkDoc ps1)) h1 = (inr txs1, h1') ->
  read_pdf_and_extract (inr (mkDoc ps2)) h2 = (inr txs2, h2') ->
  read_pdf_and_extract (inr (mkDoc (ps1 ++ ps2))) h = (inr (txs1 ++ txs2), Closed).
Proof.
  intros H1 H2. apply read_pdf_and_extract_ok in H1 as [H1 _].
  apply read_pdf_and_extract_ok in H2 as [H2 _].
  apply read_pdf_and_extract_ok. split; [|reflexivity].
  simpl in *. rewrite pages_loop_app, H1. simpl.
  destruct (pages_loop_appends ps2 0 [] txs2 H2) as (added & E & Hall).
  simpl in E. subst added. apply Hall.
Qed.

End Documents.

(** Witness of X8: a page with the sample table, then a page without
    table. *)
Lemma X8_document_pages_compose_witness :
  let p1 := inr (mkPage (inr (lit "Statement of 31 Dec 2023")) (inr [])
                   (inr [mkTable (inr sample_table)])) in
  let p2 := inr sample_page in
  exists txs1,
    read_pdf_and_extract (inr (mkDoc ([p1] ++ [p2]))) NotOpened
    = (inr (txs1 ++ []), Closed) /\
    List.length txs1 = 2%nat.
Proof.
  intros p1 p2. eexists. split.
  - apply (X8_document_pages_compose [p1] [p2] NotOpened NotOpened NotOpened
             Closed Closed); vm_compute; reflexivity.
  - reflexivity.
Defined.

(** ** The command line driver *)

Lemma export_to_csv_exported (transactions : list transaction)
    (csv_path : string) (debug : bool) (fs : filesystem) :
  refused fs csv_path = None ->
  export_to_csv transactions csv_path debug fs =
  inr (exported fs csv_path debug transactions).
Proof.
  intros Hr. destruct transactions as [|tx rest]; [reflexivity|].
  exact (export_to_csv_written tx rest csv_path debug fs Hr).
Qed.


(** An export changes no answer of [open]. *)
Lemma exported_refused (fs : filesystem) (csv_path : string) (debug : bool)
    (transactions : list transaction) :
  refused (exported fs csv_path debug transactions) = refused fs.
Proof. destruct transactions; reflexivity. Qed.

Lemma separate_exports_refused (H : host) (debug : bool) (pdfs : list string)
    (txss : list (list transaction)) (fs : filesystem) :
  refused (separate_exports H debug pdfs txss fs) = refused fs.
Proof.
  revert txss fs. induction pdfs as [|pdf pdfs IH]; intros txss fs.
  - reflexivity.
  - destruct txss as [|txs txss]; [reflexivity|]. simpl.
    now rewrite IH, exported_refused.
Qed.



Section DriverProperties.
Context {U : UnicodeDB}.

(** A PDF that is read to the end leaves its handle closed. *)
Lemma read_result_closed (pdf : external document) (txs : list transaction) :
  fst (read_pdf_and_extract pdf NotOpened) = inr txs ->
  read_pdf_and_extract pdf NotOpened = (inr txs, Closed).
Proof.
  destruct (read_pdf_and_extract pdf NotOpened) as [r h] eqn:E. simpl.
  intros ->. now rewrite (read_pdf_and_extract_closes pdf NotOpened h txs E).
Qed.


Lemma process_loop_ok (H : host) (pdfs : list string)
    (txss : list (list transaction)) (separate debug : bool)
    (all_transactions : list transaction) (w : world) :
  all_read H pdfs txss ->
  (separate = true ->
   forall pdf, In pdf pdfs -> refused (files w) (with_suffix_csv H pdf) = None) ->
  process_loop H pdfs separate debug all_transactions w =
  (inr (all_transactions ++ concat txss),
   mkWorld
     (if separate then separate_exports H debug pdfs txss (files w)
      else files w)
     (handles w ++ closed_handles pdfs)).
Proof.
  intros Hall. revert all_transactions w.
  induction Hall as [|pdf txs pdfs txss Hr Hall IH]; intros acc w Hw.
  - simpl. rewrite !app_nil_r. destruct w; destruct separate; reflexivity.
  - cbn [process_loop]. rewrite (read_result_closed _ _ Hr). cbn [files handles].
    destruct separate.
    + rewrite export_to_csv_exported by (apply Hw; [reflexivity | now left]).
      rewrite IH.
      * cbn [files handles concat]. rewrite <- !app_assoc. reflexivity.
      * intros _ p Hp. cbn [files]. rewrite exported_refused.
        apply Hw; [reflexivity | now right].
    + cbn [ret]. rewrite IH by (intros C; discriminate C).
      cbn [files handles concat]. rewrite <- !app_assoc. reflexivity.
Qed.


(** X9: for an input path that is a file and no directory, without the
    options combined and separate, the driver reads the PDF and writes no
    CSV file at all, whatever the PDF holds. *)
Theorem X9_single_file_without_option_writes_nothing (H : host)
    (input_path : string) (debug : bool) (w : world) :
  is_file H input_path = true -> is_dir H input_path = false ->
  files (snd (process H input_path false false debug w)) = files w /\
  exists h,
    handles (snd (process H input_path false false debug w))
    = handles w ++ [(input_path, h)].
Proof.
  intros Hf Hd. unfold process, process_pdfs. rewrite Hf, Hd.
  cbn [andb process_loop].
  destruct (read_pdf_and_extract (open_pdf H input_path) NotOpened) as [r h].
  destruct r as [e|txs]; cbn [ret files handles snd]; eauto.
Qed.




(** An input path that is neither a file nor a directory changes nothing:
    no PDF is opened and no file is written. *)
Lemma process_invalid_path (H : host) (input_path : string)
    (combined separate debug : bool) (w : world) :
  is_file H input_path = false -> is_dir H input_path = false ->
  process H input_path combined separate debug w = (inr tt, w).
Proof. intros Hf Hd. unfold process. now rewrite Hf, Hd. Qed.


(** X15: on a directory, without the option separate, when every PDF is
    read without exception and has given a transaction at least, but the
    path of the combined CSV cannot be opened, the driver raises the error
    of [open] after all the PDFs have been read and closed: the
    transactions are lost and no file is written. *)
Theorem X15_combined_refused (H : host) (input_path : string)
    (combined debug : bool) (w : world) (txss : list (list transaction))
    (msg : string) :
  is_file H input_path = false -> is_dir H input_path = true ->
  all_read H (sorted_pdfs H input_path) txss ->
  concat txss <> [] ->
  refused (files w) (combined_csv_path H input_path) = Some msg ->
  process H input_path combined false debug w =
  (inl (OSError msg),
   mkWorld (files w) (handles w ++ closed_handles (sorted_pdfs H input_path))).
Proof.
  intros Hf Hd Hall Hne Hw. unfold process, process_pdfs. rewrite Hf, Hd.
  rewrite (process_loop_ok H _ txss false debug [] w Hall)
    by (intros C; discriminate C).
  cbn [app files handles].
  destruct (concat txss) as [|tx rest]; [contradiction|].
  rewrite (export_to_csv_refused tx rest _ _ _ msg Hw).
  destruct combined; reflexivity.
Qed.

End DriverProperties.

(** Witness of X9: the file "a.pdf", which holds two transactions. *)
Lemma X9_single_file_without_option_writes_nothing_witness :
  files (snd (process sample_host "a.pdf" false false false initial_world))
  = files initial_world /\
  exists h,
    handles (snd (process sample_host "a.pdf" false false false initial_world))
    = handles initial_world ++ [("a.pdf"%string, h)].
Proof.
  apply (X9_single_file_without_option_writes_nothing sample_host "a.pdf"
           false initial_world); reflexivity.
Defined.





(** Witness of X15: the directory "dir" whose combined CSV cannot be
    opened. *)
Lemma X15_combined_refused_witness :
  let fs := mkFs (fun _ => None)
                 (fun q => if String.eqb q "dir/dir_combined.csv"
                           then Some "Permission denied"%string else None) in
  process sample_host "dir" false false false (mkWorld fs []) =
  (inl (OSError "Permission denied"),
   mkWorld fs [("dir/a.pdf"%string, Closed); ("dir/b.pdf"%string, Closed)]).
Proof.
  intros fs.
  assert (Ha : fst (read_pdf_and_extract (open_pdf sample_host "dir/a.pdf")
                      NotOpened) = inr _) by (vm_compute; reflexivity).
  assert (Hb : fst (read_pdf_and_extract (open_pdf sample_host "dir/b.pdf")
                      NotOpened) = inr []) by (vm_compute; reflexivity).
  match type of Ha with
  | _ = inr ?l =>
      apply (X15_combined_refused sample_host "dir" false false
               (mkWorld fs []) [l; []] "Permission denied")
  end.
  - reflexivity.
  - reflexivity.
  - constructor; [exact Ha|]. constructor; [exact Hb | constructor].
  - discriminate.
  - reflexivity.
Defined.

(** ** Rows that give no transaction *)

Lemma dropwhile_nil {A} (p : A -> bool) (l : list A) :
  dropwhile p l = [] <-> forallb p l = true.
Proof.
  induction l as [|x l IH]; simpl; [tauto|].
  destruct (p x); simpl; [exact IH|]. split; discriminate.
Qed.

Section DroppedRows.
Context {U : UnicodeDB}.

Lemma strip_nil (s : str) : strip s = [] <-> forallb isspace s = true.
Proof.
  unfold strip, rstrip, lstrip. split.
  - intros H. apply (f_equal (@rev char)) in H. rewrite rev_involutive in H.
    simpl in H. apply dropwhile_nil in H. rewrite forallb_rev in H.
    destruct (dropwhile isspace s) as [|c r] eqn:D.
    + now apply dropwhile_nil.
    + exfalso. simpl in H. apply andb_true_iff in H as [Hc _].
      clear - D Hc. induction s as [|x s IH]; simpl in D; [discriminate|].
      destruct (isspace x) eqn:X; [auto|]. inversion D; subst. congruence.
  - intros H. apply dropwhile_nil in H. rewrite H. reflexivity.
Qed.

Lemma join_space_blank (cells : list str) :
  forallb isspace (join [chr_space] cells) = forallb (forallb isspace) cells.
Proof.
  induction cells as [|c cells IH]; [reflexivity|].
  destruct cells as [|c' cells].
  - simpl. now rewrite andb_true_r.
  - change (join [chr_space] (c :: c' :: cells))
      with (c ++ [chr_space] ++ join [chr_space] (c' :: cells)).
    rewrite !forallb_app, IH. reflexivity.
Qed.

Lemma details_of_nil (cells : list str) :
  details_of cells = [] <->
  Forall (fun cell => AMOUNT_RE_match cell = true \/
                      forallb isspace cell = true) cells.
Proof.
  unfold details_of. rewrite strip_nil, join_space_blank.
  induction cells as [|c cells IH]; simpl.
  - split; [constructor | reflexivity].
  - destruct (AMOUNT_RE_match c) eqn:A; simpl.
    + split.
      * intros H. constructor; [now left | now apply IH].
      * intros H. inversion H; subst. now apply IH.
    + split.
      * intros H. apply andb_true_iff in H as [Hc H].
        constructor; [now right | now apply IH].
      * intros H. inversion H as [|? ? Hc Hr]; subst.
        apply andb_true_iff. split; [|now apply IH].
        destruct Hc as [Hc|Hc]; [congruence | exact Hc].
Qed.

(** X14: a row gives no transaction exactly when no date is carried to
    it, it writes no date itself, each of its cells is an amount or white
    space, and the amount scan leaves debit, credit and balance at zero:
    the row has no amount, or a zero amount, or an amount whose word lies
    in no column band.  Such a row leaves no trace in the output. *)
Theorem X14_row_dropped (row : list str) (idx : nat) (words : list word)
    (inherited_date : str) :
  parse_transaction_row row idx words inherited_date = inr None <->
  inherited_date = [] /\
  scan_date row = inr None /\
  Forall (fun cell => AMOUNT_RE_match cell = true \/
                      forallb isspace cell = true) row /\
  exists debit credit balance coords,
    scan_amount row words = inr (debit, credit, balance, coords) /\
    float_truthy debit || float_truthy credit || float_truthy balance = false.
Proof.
  destruct (scan_amount_total row words) as (money & coords & Ha & _).
  destruct (scan_date_total row) as [found Hd].
  rewrite (parse_transaction_row_eq row idx words inherited_date _ _ _ Ha Hd).
  rewrite Ha, Hd, <- details_of_nil.
  destruct money as [[debit credit] balance]. unfold row_result.
  destruct found as [[date details]|].
  - pose proof (scan_date_some_truthy _ _ _ Hd) as Ht. rewrite Ht. simpl.
    split; [discriminate|]. intros (_ & C & _). discriminate.
  - split.
    + destruct inherited_date as [|c s]; [|simpl; discriminate].
      destruct (details_of row) as [|c s]; [|simpl; discriminate].
      simpl.
      destruct (float_truthy debit || float_truthy credit
                || float_truthy balance) eqn:M; [discriminate|].
      intros _. repeat split. exists debit, credit, balance, coords.
      split; [reflexivity | exact M].
    + intros (-> & _ & -> & d & c & b & co & E & M).
      inversion E; subst. simpl. simpl in M. now rewrite M.
Qed.

End DroppedRows.

(** Witness of X14: a row whose only cell is the amount 5.00, carried by a
    word at x0 = 10, outside every band, on a page without date. *)
Lemma X14_row_dropped_witness :
  parse_transaction_row [lit "5.00"] 0
    [mkWord (float_of_Z 10) (float_of_Z 100) (float_of_Z 30) (float_of_Z 110)
       (lit "5.00") 0 0 0] [] = inr None.
Proof.
  apply (proj2 (X14_row_dropped _ _ _ _)).
  split; [reflexivity|]. split; [reflexivity|]. split.
  - constructor; [left; reflexivity | constructor].
  - eexists _, _, _, _. split; [vm_compute; reflexivity | reflexivity].
Defined.
